(** * gemini-predict: the prediction endpoint, embedded and verified

    A shallow embedding of [netlify/functions/gemini-predict.js]: the
    request handler that asks the generative-AI provider for a match
    prediction, validates the answer, stores it and returns the stored
    row, together with its error classification.

    Conventions of the embedding.
    - JavaScript strings are [string]s holding their UTF-8 text.  Every
      literal the handler searches for is ASCII, and [toLowerCase] is
      modelled up to the characters that are not ASCII in its result
      (see [JsString.toLowerCase]).
    - The values that travel as JSON (request body, prediction payload,
      stored row) are [JSValue]s; numbers are IEEE doubles.
    - The provider's response envelope and the store's error object are
      records with optional fields, following the types the two client
      libraries declare for them.
    - What the JavaScript engine and the two remote services do is not
      part of the file under study: it is carried by the records
      [Engine] and [Services], over which every theorem quantifies.
    - Effects (console output and the two outbound calls) are recorded,
      in order, in the trace of the [Eff] monad.  A console line is the
      text of the first argument followed by the message of the second;
      how the console renders an object is not modelled. *)

From Stdlib Require Import String Ascii List ZArith Bool Lia.
From Stdlib Require Import PrimFloat FloatOps SpecFloat DecimalString.
Import ListNotations.
Open Scope string_scope.
Set Warnings "-register-all".

(** ** String operations used by the handler *)

Module JsString.

(** [c] lowered when it is one of A-Z. *)
Definition toLowerCase_char (c : ascii) : ascii :=
  let n := nat_of_ascii c in
  if (65 <=? n)%nat && (n <=? 90)%nat then ascii_of_nat (n + 32) else c.

(** The three bytes of U+212A KELVIN SIGN, the two of U+0130 LATIN
    CAPITAL LETTER I WITH DOT ABOVE and the two of U+0307 COMBINING DOT
    ABOVE. *)
Definition kelvin1 : ascii := ascii_of_nat 226.
Definition kelvin2 : ascii := ascii_of_nat 132.
Definition kelvin3 : ascii := ascii_of_nat 170.
Definition dotted1 : ascii := ascii_of_nat 196.
Definition dotted2 : ascii := ascii_of_nat 176.
Definition dot1 : ascii := ascii_of_nat 204.
Definition dot2 : ascii := ascii_of_nat 135.

Definition kelvin_sign : string :=
  String kelvin1 (String kelvin2 (String kelvin3 EmptyString)).
Definition dotted_I : string := String dotted1 (String dotted2 EmptyString).

(** [String.prototype.toLowerCase], exact on every ASCII character of
    its result: the letters A-Z are lowered, U+212A lowers to [k] and
    U+0130 to [i] followed by U+0307, the only characters beyond ASCII
    whose lowercase form holds an ASCII character.  The other
    characters beyond ASCII, whose lowercase forms are beyond ASCII
    too, are left as they are; no test of the handler tells the
    difference. *)
Fixpoint toLowerCase (s : string) : string :=
  match s with
  | EmptyString => EmptyString
  | String c rest =>
      if Ascii.eqb c kelvin1 then
        match rest with
        | String c2 (String c3 rest3) =>
            if Ascii.eqb c2 kelvin2 && Ascii.eqb c3 kelvin3
            then String "k" (toLowerCase rest3)
            else String c (toLowerCase rest)
        | _ => String c (toLowerCase rest)
        end
      else if Ascii.eqb c dotted1 then
        match rest with
        | String c2 rest2 =>
            if Ascii.eqb c2 dotted2
            then String "i" (String dot1 (String dot2 (toLowerCase rest2)))
            else String c (toLowerCase rest)
        | EmptyString => String c (toLowerCase rest)
        end
      else String (toLowerCase_char c) (toLowerCase rest)
  end.

(** [s.startsWith(p)]. *)
Fixpoint startsWith (s p : string) {struct p} : bool :=
  match p with
  | EmptyString => true
  | String c p' =>
      match s with
      | EmptyString => false
      | String d s' => Ascii.eqb c d && startsWith s' p'
      end
  end.

(** [s.includes(needle)]: [needle] starts at some position of [s]. *)
Fixpoint includes (s needle : string) : bool :=
  startsWith s needle
  || match s with
     | EmptyString => false
     | String _ s' => includes s' needle
     end.


(** Truthiness of a string: every string but the empty one. *)
Definition truthy (s : string) : bool := negb (s =? "").

End JsString.
Import JsString.

(** ** JavaScript values that travel as JSON *)

Inductive JSValue : Type :=
| JSUndefined
| JSNull
| JSBool (b : bool)
| JSNumber (n : float)
| JSString (s : string)
| JSArray (elements : list JSValue)
| JSObject (properties : list (string * JSValue)).

(** Own property [k] of a property list, [undefined] when absent.  A
    property list holds a name at most once. *)
Fixpoint lookup (k : string) (ps : list (string * JSValue)) : JSValue :=
  match ps with
  | [] => JSUndefined
  | (k', v) :: ps' => if k' =? k then v else lookup k ps'
  end.

Definition has_own (k : string) (ps : list (string * JSValue)) : bool :=
  existsb (fun p => fst p =? k) ps.

(** [v.k] for a value that is neither [null] nor [undefined] and a name
    [k] that no prototype defines (the handler reads [teamA], [teamB]
    and [matchCategory]): the own property of an object, [undefined]
    for arrays and primitives. *)
Definition get (v : JSValue) (k : string) : JSValue :=
  match v with
  | JSObject ps => lookup k ps
  | _ => JSUndefined
  end.

(** ** Exceptions and completions *)

(** A thrown value, seen through the only property the handler reads:
    [error.message], [None] when the thrown value has none. *)
Record JsError : Type := mkError { message : option string }.

(** [new Error(msg)]. *)
Definition Error (msg : string) : JsError := mkError (Some msg).

Inductive Completion (A : Type) : Type :=
| Return (a : A)
| Throw (e : JsError).
Arguments Return {A} a.
Arguments Throw {A} e.

(** ** The engine: built-ins whose results the handler consumes *)

Record Engine : Type := {
  (** [JSON.parse]: the parsed value, or a [SyntaxError] whose wording
      is the engine's. *)
  JSON_parse : string -> Completion JSValue;
  (** [JSON.stringify]. *)
  JSON_stringify : JSValue -> string;
  (** [Number.prototype.toString]. *)
  Number_toString : float -> string;
  (** Wording of the [TypeError] raised when [null] is destructured. *)
  TypeError_destructure : string;
  (** Wording of the [TypeError] raised when an object has no primitive
      rendering. *)
  TypeError_toPrimitive : string
}.

(** ** The provider's response envelope *)

Record Part : Type := { text : option string }.
Record Content : Type := { parts : option (list Part) }.
Record Candidate : Type := {
  content : option Content;
  finishReason : option string
}.
Record PromptFeedback : Type := { blockReason : option string }.
Record GenerateContentResponse : Type := {
  candidates : option (list Candidate);
  promptFeedback : option PromptFeedback
}.

(** ** The store's answer to [insert(...).select().single()] *)

Record PostgrestError : Type := { error_message : string }.
Record PostgrestResponse : Type := {
  data : JSValue;
  error : option PostgrestError
}.

(** ** The two remote services *)

Record Services : Type := {
  (** [new GoogleGenAI({ apiKey })]: the client, or the error its
      constructor throws. *)
  GoogleGenAI_new : Completion unit;
  (** [ai.models.generateContent] for model [gemini-2.5-pro] with the
      fixed response schema, as a function of the prompt. *)
  generateContent : string -> Completion (option GenerateContentResponse);
  (** [supabase.from('predictions').insert(row).select().single()]. *)
  insert : JSValue -> PostgrestResponse
}.

(** ** Effects *)

Inductive Event : Type :=
| ConsoleWarn (line : string)
| ConsoleError (line : string)
| CallGenerateContent (prompt : string)
| CallInsert (row : JSValue).

(** A computation: the events it performed, in order, and how it ended. *)
Definition Eff (A : Type) : Type := list Event * Completion A.

Definition ret {A} (a : A) : Eff A := ([], Return a).
Definition throw {A} (e : JsError) : Eff A := ([], Throw e).
Definition emit (ev : Event) : Eff unit := ([ev], Return tt).
Definition lift {A} (c : Completion A) : Eff A := ([], c).

Definition bind {A B} (m : Eff A) (f : A -> Eff B) : Eff B :=
  match m with
  | (t, Return a) => let (t', c) := f a in ((t ++ t')%list, c)
  | (t, Throw e) => (t, Throw e)
  end.

(** [try { m } catch (e) { h e }]. *)
Definition try_catch {A} (m : Eff A) (h : JsError -> Eff A) : Eff A :=
  match m with
  | (t, Return a) => (t, Return a)
  | (t, Throw e) => let (t', c) := h e in ((t ++ t')%list, c)
  end.

Notation "x <- m ;; k" := (bind m (fun x => k))
  (at level 61, m at next level, right associativity).
Notation "m ;;; k" := (bind m (fun _ => k))
  (at level 61, right associativity).

Definition trace {A} (m : Eff A) : list Event := fst m.
Definition outcome {A} (m : Eff A) : Completion A := snd m.

(** The outbound calls among the events. *)
Definition is_generate (ev : Event) : bool :=
  match ev with CallGenerateContent _ => true | _ => false end.
Definition is_insert (ev : Event) : bool :=
  match ev with CallInsert _ => true | _ => false end.
Definition is_outbound (ev : Event) : bool := is_generate ev || is_insert ev.

Definition inserts (t : list Event) : list Event := filter is_insert t.
Definition outbound (t : list Event) : list Event := filter is_outbound t.

(** ** The handler's request and response *)

Module HandlerEvent.
(** [event.httpMethod] and [event.body]; the body is [None] when the
    platform passes [null]. *)
Record t : Type := { httpMethod : string; body : option string }.
End HandlerEvent.

Module HandlerResponse.
(** [headers] is [None] where the returned object has no such key. *)
Record t : Type := {
  statusCode : Z;
  headers : option (list (string * string));
  body : string
}.
End HandlerResponse.

Definition json_headers : option (list (string * string)) :=
  Some [("Content-Type", "application/json")].

(** ** Error classification (the [catch] block, lines 183-209) *)

Definition unknown_error : string := "An unknown error occurred.".
Definition api_key_error : string :=
  "[API Key Error] The Gemini API key is invalid or missing. Please check the server configuration.".
Definition quota_error : string :=
  "[Quota Error] The application has exceeded its API usage limit. Please try again later.".
Definition database_error : string :=
  "[Database Error] A problem occurred while saving the prediction.".
Definition prediction_error : string :=
  "[Prediction Error] An unexpected issue occurred.".

(** [error.message || 'An unknown error occurred.'] *)
Definition message_or_unknown (error : JsError) : string :=
  match message error with
  | Some m => if truthy m then m else unknown_error
  | None => unknown_error
  end.

(** The pair [(statusCode, errorMessage)] the [catch] block ends with. *)
Definition classify (error : JsError) : Z * string :=
  let statusCode := 500%Z in
  let errorMessage := message_or_unknown error in
  if includes (toLowerCase errorMessage) "api key not valid" then
    (401%Z, api_key_error)
  else if includes (toLowerCase errorMessage) "quota" then
    (429%Z, quota_error)
  else if includes errorMessage "safety filter" then
    (400%Z, "[Safety Block] " ++ errorMessage)
  else if includes errorMessage "JSON" then
    (500%Z, "[Invalid Response] " ++ errorMessage)
  else if includes errorMessage "database" then
    (500%Z, database_error)
  else if negb (startsWith errorMessage "[") then
    (statusCode, prediction_error)
  else
    (statusCode, errorMessage).

(** ** Messages thrown by the validation steps *)

Definition prompt_blocked (blockReason : string) : string :=
  "The request was blocked by the AI's safety filter (" ++ blockReason
  ++ "). Please try different team names.".
Definition no_valid_prediction : string :=
  "The AI did not return a valid prediction. This can happen with very obscure teams or due to network issues.".
Definition response_blocked : string :=
  "The AI's response was blocked by its safety filter. Please try a different match-up.".
Definition response_cut_off : string :=
  "The AI's response was too long and was cut off before it could be completed.".
Definition invalid_json : string :=
  "The AI returned an invalid JSON response. Please try again.".
Definition save_failed (db_message : string) : string :=
  "Failed to save prediction to the database: " ++ db_message.

(** [userMessage] as lines 131-136 leave it, for the finish reason of
    line 128. *)
Definition userMessage (finishReason : string) : string :=
  let userMessage := no_valid_prediction in
  if finishReason =? "SAFETY" then response_blocked
  else if finishReason =? "MAX_TOKENS" then response_cut_off
  else userMessage.

(** ** Reading the response envelope *)

(** [xs?.[0]] *)
Definition first {A} (xs : option (list A)) : option A :=
  match xs with
  | Some (x :: _) => Some x
  | _ => None
  end.

(** [o?.f] *)
Definition chain {A B} (o : option A) (f : A -> option B) : option B :=
  match o with
  | Some a => f a
  | None => None
  end.

(** [response?.candidates?.[0]] *)
Definition first_candidate (response : option GenerateContentResponse)
  : option Candidate :=
  first (chain response candidates).

(** [response?.promptFeedback?.blockReason] *)
Definition prompt_blockReason (response : option GenerateContentResponse)
  : option string :=
  chain (chain response promptFeedback) blockReason.

(** [candidate.content?.parts?.[0]?.text] *)
Definition candidate_text (candidate : Candidate) : option string :=
  chain (first (chain (content candidate) parts)) text.

(** Truthiness of an optional string: present and not empty. *)
Definition truthy_opt (o : option string) : bool :=
  match o with
  | Some s => truthy s
  | None => false
  end.

(** [o || d] for an optional string. *)
Definition or_else (o : option string) (d : string) : string :=
  match o with
  | Some s => if truthy s then s else d
  | None => d
  end.

(** [o === lit] for an optional string and a string literal. *)
Definition strict_eq (o : option string) (lit : string) : bool :=
  match o with
  | Some s => s =? lit
  | None => false
  end.

(** An optional string inside a template literal. *)
Definition render (o : option string) : string :=
  match o with
  | Some s => s
  | None => "undefined"
  end.

(** [!candidate || !candidate.content?.parts?.[0]?.text] *)
Definition lacks_text (candidate : option Candidate) : bool :=
  match candidate with
  | None => true
  | Some c => negb (truthy_opt (candidate_text c))
  end.

(** Lines 141-143: the warning written when the finish reason is not
    ['STOP'], and nothing otherwise. *)
Definition unexpected_finish (candidate : option Candidate) : list Event :=
  if negb (strict_eq (chain candidate finishReason) "STOP") then
    [ConsoleWarn ("Gemini generation finished unexpectedly. Reason: "
                  ++ render (chain candidate finishReason))]
  else [].

(** The line the [catch] block writes to the console (line 181). *)
Definition caught (e : JsError) : Event :=
  ConsoleError ("Error in gemini-predict function: " ++ render (message e)).

(** The row handed to [insert]. *)
Definition prediction_row
  (teamA teamB matchCategory predictionData : JSValue) : JSValue :=
  JSObject [ ("team_a", teamA);
             ("team_b", teamB);
             ("match_category", matchCategory);
             ("prediction_data", predictionData);
             ("status", JSString "pending") ].

Section Handler.

Variable engine : Engine.
Variable svc : Services.

(** A value inside a template literal ([ToString]).  Arrays are joined
    with commas, [null] and [undefined] elements rendering as nothing;
    a plain object renders as [[object Object]] unless it carries an
    own [toString] property, which (never being callable in a parsed
    value) leaves it without a primitive rendering. *)
Fixpoint ToString (v : JSValue) : Completion string :=
  match v with
  | JSUndefined => Return "undefined"
  | JSNull => Return "null"
  | JSBool true => Return "true"
  | JSBool false => Return "false"
  | JSNumber n => Return (Number_toString engine n)
  | JSString s => Return s
  | JSArray elements =>
      (fix join (xs : list JSValue) : Completion string :=
         match xs with
         | [] => Return ""
         | x :: rest =>
             let item :=
               match x with
               | JSUndefined | JSNull => Return ""
               | _ => ToString x
               end in
             match item with
             | Throw e => Throw e
             | Return s =>
                 match rest with
                 | [] => Return s
                 | _ :: _ =>
                     match join rest with
                     | Throw e => Throw e
                     | Return r => Return (s ++ "," ++ r)
                     end
                 end
             end
         end) elements
  | JSObject properties =>
      if has_own "toString" properties
      then Throw (Error (TypeError_toPrimitive engine))
      else Return "[object Object]"
  end.

(** [const { teamA, teamB, matchCategory } = v] *)
Definition destructure (v : JSValue)
  : Completion (JSValue * JSValue * JSValue) :=
  match v with
  | JSUndefined | JSNull => Throw (Error (TypeError_destructure engine))
  | _ => Return (get v "teamA", get v "teamB", get v "matchCategory")
  end.

(** The prompt of line 103; the substitutions are evaluated left to
    right. *)
Definition build_prompt (teamA teamB matchCategory : JSValue)
  : Completion string :=
  match ToString matchCategory with
  | Throw e => Throw e
  | Return category =>
      match ToString teamA with
      | Throw e => Throw e
      | Return home =>
          match ToString teamB with
          | Throw e => Throw e
          | Return away =>
              Return ("Analyze the upcoming " ++ category
                      ++ "'s soccer match between " ++ home
                      ++ " (Home) and " ++ away
                      ++ " (Away). Provide a detailed prediction including analysis, key stats, betting tips, and player information.")
          end
      end
  end.

(** [JSON.stringify({ error: errorMessage })] *)
Definition error_body (errorMessage : string) : string :=
  JSON_stringify engine (JSObject [("error", JSString errorMessage)]).

(** *** Validation of the provider's response (lines 117-145)

    Ends with [predictionText], or throws. *)
Definition check_response (response : option GenerateContentResponse)
  : Eff string :=
  let candidate := first_candidate response in
  let blockReason := prompt_blockReason response in
  if truthy_opt blockReason then
    emit (ConsoleWarn ("Gemini prompt was blocked for safety reasons: "
                       ++ render blockReason)) ;;;
    throw (Error (prompt_blocked (render blockReason)))
  else if lacks_text candidate then
    let finishReason :=
      or_else (chain candidate finishReason) "NO_CANDIDATE" in
    emit (ConsoleWarn ("Gemini returned an invalid or empty response. Finish Reason: "
                       ++ finishReason)) ;;;
    throw (Error (userMessage finishReason))
  else
    (unexpected_finish candidate, Return tt) ;;;
    ret (render (chain candidate candidate_text)).

(** *** Parsing and saving the prediction (lines 147-178) *)
Definition parse_and_save
  (teamA teamB matchCategory : JSValue) (predictionText : string)
  : Eff HandlerResponse.t :=
  predictionData <-
    try_catch (lift (JSON_parse engine predictionText))
      (fun _ =>
         emit (ConsoleError ("Failed to parse JSON from Gemini: "
                             ++ predictionText)) ;;;
         throw (Error invalid_json)) ;;
  let row := prediction_row teamA teamB matchCategory predictionData in
  emit (CallInsert row) ;;;
  let savedPrediction := data (insert svc row) in
  let dbError := error (insert svc row) in
  (match dbError with
   | Some e =>
       emit (ConsoleError ("Supabase DB Error: " ++ error_message e)) ;;;
       throw (Error (save_failed (error_message e)))
   | None => ret tt
   end) ;;;
  ret {| HandlerResponse.statusCode := 200;
         HandlerResponse.headers := json_headers;
         HandlerResponse.body := JSON_stringify engine savedPrediction |}.

(** *** The body of the [try] block (lines 98-178) *)
Definition try_block (event : HandlerEvent.t) : Eff HandlerResponse.t :=
  parsed <-
    lift (JSON_parse engine
            (match HandlerEvent.body event with
             | Some s => s
             | None => "null"
             end)) ;;
  fields <- lift (destructure parsed) ;;
  let '(teamA, teamB, matchCategory) := fields in
  lift (GoogleGenAI_new svc) ;;;
  prompt <- lift (build_prompt teamA teamB matchCategory) ;;
  emit (CallGenerateContent prompt) ;;;
  response <- lift (generateContent svc prompt) ;;
  predictionText <- check_response response ;;
  parse_and_save teamA teamB matchCategory predictionText.

(** The object returned at lines 211-215. *)
Definition error_response (statusCode : Z) (errorMessage : string)
  : HandlerResponse.t :=
  {| HandlerResponse.statusCode := statusCode;
     HandlerResponse.headers := json_headers;
     HandlerResponse.body := error_body errorMessage |}.

(** *** The [catch] block (lines 180-216) *)
Definition catch_block (error : JsError) : Eff HandlerResponse.t :=
  emit (caught error) ;;;
  let '(statusCode, errorMessage) := classify error in
  ret (error_response statusCode errorMessage).

(** *** [handler] (lines 92-216) *)
Definition handler (event : HandlerEvent.t) : Eff HandlerResponse.t :=
  if negb (HandlerEvent.httpMethod event =? "POST") then
    ret {| HandlerResponse.statusCode := 405;
           HandlerResponse.headers := None;
           HandlerResponse.body := error_body "Method Not Allowed" |}
  else
    try_catch (try_block event) catch_block.

(** The request is a POST whose body parses and destructures to the
    three fields, the client is built, the prompt is [prompt] and the
    provider answers it with [response]. *)
Definition provider_answers
  (event : HandlerEvent.t) (teamA teamB matchCategory : JSValue)
  (prompt : string) (response : option GenerateContentResponse) : Prop :=
  HandlerEvent.httpMethod event = "POST"
  /\ (exists parsed,
        JSON_parse engine
          (match HandlerEvent.body event with
           | Some s => s
           | None => "null"
           end) = Return parsed
        /\ destructure parsed = Return (teamA, teamB, matchCategory))
  /\ GoogleGenAI_new svc = Return tt
  /\ build_prompt teamA teamB matchCategory = Return prompt
  /\ generateContent svc prompt = Return response.

End Handler.

(** The response carries no block reason and its first candidate carries
    the non-empty text [predictionText]: the two checks of lines 121 and
    127 pass. *)
Definition passes_checks
  (response : option GenerateContentResponse) (predictionText : string)
  : Prop :=
  truthy_opt (prompt_blockReason response) = false
  /\ exists candidate,
       first_candidate response = Some candidate
       /\ candidate_text candidate = Some predictionText
       /\ truthy predictionText = true.

(** The store's row [saved] holds every column of [row] with its value
    (and possibly columns of the store's own). *)
Definition stored_as (row saved : JSValue) : Prop :=
  match row with
  | JSObject columns =>
      forall k, has_own k columns = true -> get saved k = lookup k columns
  | _ => False
  end.

(** The request is a POST whose body parses and destructures to the
    three fields, the client is built and the prompt is [prompt]: the
    handler is about to call the provider (line 105). *)
Definition prompt_built
  (engine : Engine) (svc : Services)
  (event : HandlerEvent.t) (teamA teamB matchCategory : JSValue)
  (prompt : string) : Prop :=
  HandlerEvent.httpMethod event = "POST"
  /\ (exists parsed,
        JSON_parse engine
          (match HandlerEvent.body event with
           | Some s => s
           | None => "null"
           end) = Return parsed
        /\ destructure engine parsed = Return (teamA, teamB, matchCategory))
  /\ GoogleGenAI_new svc = Return tt
  /\ build_prompt engine teamA teamB matchCategory = Return prompt.

(** The text of line 103 for three rendered fields. *)
Definition prompt_text (category home away : string) : string :=
  "Analyze the upcoming " ++ category
  ++ "'s soccer match between " ++ home
  ++ " (Home) and " ++ away
  ++ " (Away). Provide a detailed prediction including analysis, key stats, betting tips, and player information.".

(** ** The classification policy, as the specification words it *)


(** [c] is the capital of the small letter [d]. *)
Definition is_capital_of (c d : ascii) : Prop :=
  (65 <= nat_of_ascii c <= 90)%nat /\ nat_of_ascii d = (nat_of_ascii c + 32)%nat.

(** [reads_as u needle]: [u] reads [needle] once the case of letters is
    ignored.  Character by character, [u] has the character of
    [needle], or its capital, or, for [k], U+212A KELVIN SIGN (the
    Unicode character whose small letter is [k]). *)
Inductive reads_as : string -> string -> Prop :=
| reads_nil : reads_as EmptyString EmptyString
| reads_same c u needle :
    reads_as u needle -> reads_as (String c u) (String c needle)
| reads_capital c d u needle :
    is_capital_of c d ->
    reads_as u needle -> reads_as (String c u) (String d needle)
| reads_kelvin u needle :
    reads_as u needle ->
    reads_as (kelvin_sign ++ u) (String "k" needle).

(** [needle] occurs in [s] up to the case of letters. *)
Definition contains_ignoring_case (s needle : string) : Prop :=
  exists pre u post, s = pre ++ u ++ post /\ reads_as u needle.

(** [c] is a small ASCII letter or a space. *)
Definition plain_char (c : ascii) : bool :=
  let n := nat_of_ascii c in
  ((97 <=? n)%nat && (n <=? 122)%nat) || (n =? 32)%nat.

(** A needle of small ASCII letters and spaces that does not end in
    [i], as the two needles that line 188 and line 191 look for in the
    lowered message. *)
Fixpoint plain (needle : string) : bool :=
  match needle with
  | EmptyString => true
  | String c rest =>
      plain_char c
      && match rest with
         | EmptyString => negb (Ascii.eqb c "i")
         | String _ _ => plain rest
         end
  end.

(** [c] is a byte other than the first of U+212A or of U+0130. *)
Definition is_tail (c : ascii) : bool :=
  Ascii.eqb c kelvin2 || Ascii.eqb c kelvin3 || Ascii.eqb c dotted2.





(** ** A sample engine, sample services and sample data

    They instantiate the theorems below.  The engine answers as V8 (the
    engine of Node.js) does on the texts used in this file. *)

Module Sample.

(** The double-quote character. *)
Definition dq : string := String (ascii_of_nat 34) EmptyString.

(** The backslash character. *)
Definition backslash : ascii := ascii_of_nat 92.

Fixpoint escape (s : string) : string :=
match s with
| EmptyString => EmptyString
| String c s' =>
    if Ascii.eqb c (ascii_of_nat 34) || Ascii.eqb c backslash
    then String backslash (String c (escape s'))
    else String c (escape s')
end.

Definition quote (s : string) : string := dq ++ escape s ++ dq.

(** Exact on the integers below 2^53 in magnitude, the only numbers of
    the sample data. *)
Definition print_number (n : float) : string :=
match Prim2SF n with
| S754_zero _ => "0"
| S754_infinity negative => if negative then "-Infinity" else "Infinity"
| S754_nan => "NaN"
| S754_finite negative m e =>
    let magnitude :=
      if (0 <=? e)%Z then Z.shiftl (Zpos m) e else Z.shiftr (Zpos m) (- e) in
    (if negative then "-" else "")
    ++ NilZero.string_of_int (Z.to_int magnitude)
end.

(** [JSON.stringify] on values without control characters. *)
Fixpoint stringify (v : JSValue) : string :=
match v with
| JSUndefined | JSNull => "null"
| JSBool true => "true"
| JSBool false => "false"
| JSNumber n => print_number n
| JSString s => quote s
| JSArray elements =>
    "["
    ++ String.concat ","
         ((fix items (xs : list JSValue) : list string :=
             match xs with
             | [] => []
             | x :: rest => stringify x :: items rest
             end) elements)
    ++ "]"
| JSObject properties =>
    "{"
    ++ String.concat ","
         ((fix members (ps : list (string * JSValue)) : list string :=
             match ps with
             | [] => []
             | (_, JSUndefined) :: rest => members rest
             | (k, x) :: rest => (quote k ++ ":" ++ stringify x) :: members rest
             end) properties)
    ++ "}"
end.

(** The [SyntaxError] of [JSON.parse] on an empty text, and on a text
    whose first character cannot start a value. *)
Definition syntax_error (text : string) : JsError :=
match text with
| EmptyString => Error "Unexpected end of JSON input"
| String c _ =>
    Error ("Unexpected token " ++ String c EmptyString
           ++ " in JSON at position 0")
end.

(** [JSON.parse] on the texts of the values [known] and on texts that
    are no JSON at all. *)
Definition parse (known : list JSValue) (text : string)
  : Completion JSValue :=
match find (fun v => stringify v =? text) known with
| Some v => Return v
| None => Throw (syntax_error text)
end.

Definition request : JSValue :=
JSObject [ ("teamA", JSString "Arsenal");
           ("teamB", JSString "Chelsea");
           ("matchCategory", JSString "men") ].

Definition prediction : JSValue :=
JSObject [ ("prediction", JSString "Arsenal to Win");
           ("confidence", JSString "High");
           ("drawProbability", JSString "25%");
           ("bestBets",
            JSArray [ JSObject [ ("category", JSString "Match Winner");
                                 ("value", JSString "Arsenal") ] ]) ].

Definition node : Engine :=
{| JSON_parse := parse [request; prediction; JSNull];
   JSON_stringify := stringify;
   Number_toString := print_number;
   TypeError_destructure :=
     "Cannot destructure property 'teamA' of 'JSON.parse(...)' as it is null.";
   TypeError_toPrimitive := "Cannot convert object to primitive value" |}.

(** A POST carrying [text] as its body. *)
Definition post (text : string) : HandlerEvent.t :=
{| HandlerEvent.httpMethod := "POST"; HandlerEvent.body := Some text |}.

(** The POST that carries the sample request. *)
Definition match_request : HandlerEvent.t := post (stringify request).

Definition get_request : HandlerEvent.t :=
{| HandlerEvent.httpMethod := "GET"; HandlerEvent.body := None |}.

Definition prompt : string :=
"Analyze the upcoming men's soccer match between Arsenal (Home) and Chelsea (Away). Provide a detailed prediction including analysis, key stats, betting tips, and player information.".

(** A response with one candidate. *)
Definition answer (reason : option string) (txt : option string)
  : option GenerateContentResponse :=
Some {| candidates :=
          Some [ {| content := Some {| parts := Some [ {| text := txt |} ] |};
                    finishReason := reason |} ];
        promptFeedback := None |}.


(** A store that saves the row and returns it with its new [id]. *)
Definition saving (row : JSValue) : PostgrestResponse :=
{| data :=
     match row with
     | JSObject columns => JSObject (("id", JSNumber 1%float) :: columns)
     | _ => row
     end;
   error := None |}.

(** A store that rejects every row with the message [msg]. *)
Definition failing (msg : string) (row : JSValue) : PostgrestResponse :=
{| data := JSNull; error := Some {| error_message := msg |} |}.

Definition services
  (response : option GenerateContentResponse)
  (store : JSValue -> PostgrestResponse) : Services :=
{| GoogleGenAI_new := Return tt;
   generateContent := fun _ => Return response;
   insert := store |}.

End Sample.

(** * Properties *)

(** ** Strings *)

Section StringFacts.

Lemma append_assoc (a b c : string) : (a ++ b) ++ c = a ++ b ++ c.
Proof. induction a as [|x a IH]; simpl; [reflexivity | now rewrite IH]. Qed.

Lemma startsWith_app (p rest : string) : startsWith (p ++ rest) p = true.
Proof.
  induction p as [|c p IH]; simpl; [reflexivity|].
  now rewrite Ascii.eqb_refl.
Qed.

Lemma startsWith_inv (s p : string) :
  startsWith s p = true -> exists rest, s = p ++ rest.
Proof.
  revert s; induction p as [|c p IH]; intros s H; simpl in *.
  - now exists s.
  - destruct s as [|d s]; [discriminate|].
    apply andb_true_iff in H as [Hc H].
    apply Ascii.eqb_eq in Hc as ->.
    destruct (IH _ H) as [rest ->]. now exists rest.
Qed.

Lemma startsWith_iff (s p : string) :
  startsWith s p = true <-> exists rest, s = p ++ rest.
Proof.
  split.
  - apply startsWith_inv.
  - intros [rest ->]. apply startsWith_app.
Qed.

Lemma includes_unfold (s needle : string) :
  includes s needle =
  startsWith s needle
  || match s with
     | EmptyString => false
     | String _ s' => includes s' needle
     end.
Proof. destruct s; reflexivity. Qed.

Lemma includes_iff (s needle : string) :
  includes s needle = true <-> exists pre post, s = pre ++ needle ++ post.
Proof.
  split.
  - induction s as [|c s IH]; rewrite includes_unfold; intros H;
      apply orb_true_iff in H as [H|H].
    + apply startsWith_iff in H as [rest E]. now exists "", rest.
    + discriminate.
    + apply startsWith_iff in H as [rest E]. now exists "", rest.
    + destruct (IH H) as (pre & post & ->). now exists (String c pre), post.
  - intros (pre & post & ->).
    induction pre as [|c pre IH]; rewrite includes_unfold; apply orb_true_iff.
    + left. exact (startsWith_app needle post).
    + right. exact IH.
Qed.


Lemma includes_app_r (a b needle : string) :
  includes b needle = true -> includes (a ++ b) needle = true.
Proof.
  rewrite !includes_iff. intros (pre & post & ->).
  exists (a ++ pre), post.
  rewrite !append_assoc. reflexivity.
Qed.



Lemma toLowerCase_unfold (c : ascii) (rest : string) :
  toLowerCase (String c rest)
  = if Ascii.eqb c kelvin1 then
      match rest with
      | String c2 (String c3 rest3) =>
          if Ascii.eqb c2 kelvin2 && Ascii.eqb c3 kelvin3
          then String "k" (toLowerCase rest3)
          else String c (toLowerCase rest)
      | _ => String c (toLowerCase rest)
      end
    else if Ascii.eqb c dotted1 then
      match rest with
      | String c2 rest2 =>
          if Ascii.eqb c2 dotted2
          then String "i" (String dot1 (String dot2 (toLowerCase rest2)))
          else String c (toLowerCase rest)
      | EmptyString => String c (toLowerCase rest)
      end
    else String (toLowerCase_char c) (toLowerCase rest).
Proof. reflexivity. Qed.

Lemma toLowerCase_kelvin (rest : string) :
  toLowerCase (kelvin_sign ++ rest) = String "k" (toLowerCase rest).
Proof. reflexivity. Qed.

Lemma toLowerCase_dotted (rest : string) :
  toLowerCase (dotted_I ++ rest)
  = String "i" (String dot1 (String dot2 (toLowerCase rest))).
Proof. reflexivity. Qed.

(** Induction on the length of a string. *)
Lemma string_length_ind (P : string -> Prop) :
  (forall s, (forall r, (String.length r < String.length s)%nat -> P r) -> P s) ->
  forall s, P s.
Proof.
  intros step s.
  assert (H : forall n r, (String.length r < n)%nat -> P r).
  { induction n as [|n IH]; intros r Hr; [inversion Hr|].
    apply step. intros r' Hr'. apply IH.
    apply Nat.lt_le_trans with (String.length r); [exact Hr'|].
    now apply Nat.lt_succ_r. }
  apply (H (S (String.length s))). apply Nat.lt_succ_diag_r.
Qed.

(** How [toLowerCase] consumes the head of a string. *)
Lemma toLowerCase_cases (s : string) :
  s = EmptyString
  \/ (exists r, s = kelvin_sign ++ r)
  \/ (exists r, s = dotted_I ++ r)
  \/ (exists c r,
         s = String c r
         /\ toLowerCase s = String (toLowerCase_char c) (toLowerCase r)).
Proof.
  destruct s as [|c rest]; [now left|]. right.
  rewrite toLowerCase_unfold.
  destruct (Ascii.eqb c kelvin1) eqn:Hk.
  { apply Ascii.eqb_eq in Hk. subst c.
    destruct rest as [|c2 [|c3 rest3]];
      try (right; right; eexists _, _; split; reflexivity).
    destruct (Ascii.eqb c2 kelvin2) eqn:H2;
      [|right; right; eexists _, _; split; reflexivity].
    destruct (Ascii.eqb c3 kelvin3) eqn:H3;
      [|right; right; eexists _, _; split; reflexivity].
    apply Ascii.eqb_eq in H2, H3. subst. left. now exists rest3. }
  destruct (Ascii.eqb c dotted1) eqn:Hd.
  { apply Ascii.eqb_eq in Hd. subst c.
    destruct rest as [|c2 rest2];
      [right; right; eexists _, _; split; reflexivity|].
    destruct (Ascii.eqb c2 dotted2) eqn:H2;
      [|right; right; eexists _, _; split; reflexivity].
    apply Ascii.eqb_eq in H2. subst. right; left. now exists rest2. }
  right; right. eexists _, _; split; reflexivity.
Qed.

(** [toLowerCase] splits before any byte that does not continue U+212A
    or U+0130. *)
Lemma toLowerCase_app_at (a b : string) (c : ascii) :
  is_tail c = false ->
  toLowerCase (a ++ String c b) = toLowerCase a ++ toLowerCase (String c b).
Proof.
  unfold is_tail. intros Hc.
  apply orb_false_iff in Hc as [Hc H3]. apply orb_false_iff in Hc as [H1 H2].
  induction a as [a IH] using string_length_ind.
  destruct a as [|x a1]; [reflexivity|].
  change (String x a1 ++ String c b) with (String x (a1 ++ String c b)).
  rewrite (toLowerCase_unfold x (a1 ++ String c b)), (toLowerCase_unfold x a1).
  assert (IH1 : toLowerCase (a1 ++ String c b)
                = toLowerCase a1 ++ toLowerCase (String c b))
    by (apply IH; simpl; auto).
  destruct (Ascii.eqb x kelvin1).
  { destruct a1 as [|y [|z a3]].
    - cbn [append]. destruct b as [|c3 b']; rewrite ?H1; reflexivity.
    - cbn [append]. rewrite H2, andb_false_r.
      change (String y (String c b)) with (String y "" ++ String c b).
      now rewrite IH1.
    - change (String y (String z a3) ++ String c b)
        with (String y (String z (a3 ++ String c b))).
      cbv iota.
      destruct (Ascii.eqb y kelvin2 && Ascii.eqb z kelvin3).
      + rewrite IH by (simpl; auto). reflexivity.
      + change (String y (String z (a3 ++ String c b)))
          with (String y (String z a3) ++ String c b).
        now rewrite IH1. }
  destruct (Ascii.eqb x dotted1).
  { destruct a1 as [|y a2].
    - cbn [append]. rewrite H3. reflexivity.
    - change (String y a2 ++ String c b) with (String y (a2 ++ String c b)).
      cbv iota.
      destruct (Ascii.eqb y dotted2).
      + rewrite IH by (simpl; auto). reflexivity.
      + change (String y (a2 ++ String c b)) with (String y a2 ++ String c b).
        now rewrite IH1. }
  now rewrite IH1.
Qed.

Lemma eqb_by_code (c d : ascii) :
  nat_of_ascii c <> nat_of_ascii d -> Ascii.eqb c d = false.
Proof. intros H. apply Ascii.eqb_neq. intros ->. now apply H. Qed.

Lemma plain_char_code (d : ascii) :
  plain_char d = true ->
  (97 <= nat_of_ascii d <= 122)%nat \/ nat_of_ascii d = 32%nat.
Proof.
  unfold plain_char. intros H. apply orb_true_iff in H as [H|H].
  - apply andb_true_iff in H as [H1 H2].
    apply Nat.leb_le in H1, H2. now left.
  - apply Nat.eqb_eq in H. now right.
Qed.

Lemma toLowerCase_char_plain (d : ascii) :
  plain_char d = true -> toLowerCase_char d = d.
Proof.
  intros H. apply plain_char_code in H. unfold toLowerCase_char.
  destruct (nat_of_ascii d <=? 90)%nat eqn:E; [|now rewrite andb_false_r].
  apply Nat.leb_le in E.
  destruct (65 <=? nat_of_ascii d)%nat eqn:E'; [|reflexivity].
  apply Nat.leb_le in E'. lia.
Qed.

(** A plain character is none of the bytes beyond ASCII that
    [toLowerCase] reads or writes. *)
Lemma plain_char_ascii (d c : ascii) :
  plain_char d = true -> (127 < nat_of_ascii c)%nat -> Ascii.eqb d c = false.
Proof.
  intros H Hc. apply plain_char_code in H. apply eqb_by_code. lia.
Qed.

Lemma plain_char_not_tail (d : ascii) : plain_char d = true -> is_tail d = false.
Proof.
  intros H. unfold is_tail.
  now rewrite !(plain_char_ascii d) by (assumption || (vm_compute; lia)).
Qed.

Lemma capital_lowered (c d : ascii) :
  is_capital_of c d -> toLowerCase_char c = d.
Proof.
  intros [[H1 H2] Hd]. unfold toLowerCase_char.
  apply Nat.leb_le in H1, H2. rewrite H1, H2. cbn [andb].
  now rewrite <- Hd, ascii_nat_embedding.
Qed.

Lemma capital_ascii (c d x : ascii) :
  is_capital_of c d -> (127 < nat_of_ascii x)%nat -> Ascii.eqb c x = false.
Proof. intros [[H1 H2] _] Hx. apply eqb_by_code. lia. Qed.

Lemma capital_not_tail (c d : ascii) : is_capital_of c d -> is_tail c = false.
Proof.
  intros H. unfold is_tail.
  now rewrite !(capital_ascii c d) by (assumption || (vm_compute; lia)).
Qed.

(** What [toLowerCase_char] lowers to a plain character. *)
Lemma lowered_to_plain (c d : ascii) :
  toLowerCase_char c = d -> plain_char d = true -> c = d \/ is_capital_of c d.
Proof.
  unfold toLowerCase_char. intros H Hd.
  destruct ((65 <=? nat_of_ascii c)%nat && (nat_of_ascii c <=? 90)%nat) eqn:E;
    [|now left].
  right. apply andb_true_iff in E as [E1 E2]. apply Nat.leb_le in E1, E2.
  split; [now split|]. subst d. apply nat_ascii_embedding. lia.
Qed.

Lemma toLowerCase_plain (d : ascii) (rest : string) :
  plain_char d = true ->
  toLowerCase (String d rest) = String d (toLowerCase rest).
Proof.
  intros H. rewrite toLowerCase_unfold.
  rewrite !(plain_char_ascii d) by (assumption || (vm_compute; lia)).
  now rewrite toLowerCase_char_plain.
Qed.

Lemma toLowerCase_capital (c d : ascii) (rest : string) :
  is_capital_of c d ->
  toLowerCase (String c rest) = String d (toLowerCase rest).
Proof.
  intros H. rewrite toLowerCase_unfold.
  rewrite !(capital_ascii c d) by (assumption || (vm_compute; lia)).
  now rewrite (capital_lowered c d).
Qed.

Lemma plain_head (d : ascii) (rest : string) :
  plain (String d rest) = true -> plain_char d = true /\ plain rest = true.
Proof.
  cbn [plain]. intros H. apply andb_true_iff in H as [Hd H].
  split; [exact Hd|]. now destruct rest.
Qed.

Lemma plain_last (d : ascii) : plain (String d "") = true -> Ascii.eqb d "i" = false.
Proof.
  cbn [plain]. intros H. apply andb_true_iff in H as [_ H].
  now apply negb_true_iff in H.
Qed.

(** A text that reads as a plain needle starts with a byte before which
    [toLowerCase] splits. *)
Lemma reads_as_head (u : string) (d : ascii) (needle : string) :
  reads_as u (String d needle) ->
  plain_char d = true ->
  exists c u', u = String c u' /\ is_tail c = false.
Proof.
  intros H Hd. inversion H; subst.
  - eexists _, _. split; [reflexivity|]. now apply plain_char_not_tail.
  - eexists _, _. split; [reflexivity|]. now apply (capital_not_tail c d).
  - eexists _, _. split; reflexivity.
Qed.

(** The lowered text starts with a plain needle exactly when the text
    starts with something that reads as the needle. *)
Lemma startsWith_reads (needle : string) :
  plain needle = true ->
  forall s,
    startsWith (toLowerCase s) needle = true
    <-> exists u post, s = u ++ post /\ reads_as u needle.
Proof.
  induction needle as [|d needle IH]; intros Hp s.
  { split; [|reflexivity]. intros _. exists "", s. split; [reflexivity|constructor]. }
  destruct (plain_head _ _ Hp) as [Hd Hrest]. specialize (IH Hrest). split.
  - intros H.
    destruct (toLowerCase_cases s)
      as [->|[[r ->]|[[r ->]|(c & r & -> & Hs)]]].
    + discriminate H.
    + rewrite toLowerCase_kelvin in H. cbn [startsWith] in H.
      apply andb_true_iff in H as [Hk H]. apply Ascii.eqb_eq in Hk. subst d.
      apply IH in H as (u & post & -> & Hu).
      exists (kelvin_sign ++ u), post. split; [reflexivity|now constructor].
    + rewrite toLowerCase_dotted in H. cbn [startsWith] in H.
      apply andb_true_iff in H as [Hi H].
      destruct needle as [|d' needle'].
      * rewrite (plain_last _ Hp) in Hi. discriminate Hi.
      * destruct (plain_head _ _ Hrest) as [Hd' _]. cbn [startsWith] in H.
        rewrite (plain_char_ascii d' dot1 Hd') in H by (vm_compute; lia).
        discriminate H.
    + rewrite Hs in H. cbn [startsWith] in H.
      apply andb_true_iff in H as [Hc H]. apply Ascii.eqb_eq in Hc.
      apply IH in H as (u & post & -> & Hu).
      exists (String c u), post. split; [reflexivity|].
      destruct (lowered_to_plain c d (eq_sym Hc) Hd) as [->|Hcap];
        now constructor.
  - intros (u & post & -> & Hu). inversion Hu; subst.
    + change (String d u0 ++ post) with (String d (u0 ++ post)).
      rewrite (toLowerCase_plain _ _ Hd). cbn [startsWith].
      rewrite Ascii.eqb_refl. apply IH. now exists u0, post.
    + change (String c u0 ++ post) with (String c (u0 ++ post)).
      rewrite (toLowerCase_capital c d) by assumption. cbn [startsWith].
      rewrite Ascii.eqb_refl. apply IH. now exists u0, post.
    + rewrite append_assoc, toLowerCase_kelvin. cbn [startsWith].
      apply IH. now exists u0, post.
Qed.

(** The lowered text includes a plain needle exactly when the needle
    occurs in the text up to the case of letters. *)
Lemma includes_reads (needle s : string) :
  plain needle = true ->
  includes (toLowerCase s) needle = true <-> contains_ignoring_case s needle.
Proof.
  intros Hp. unfold contains_ignoring_case.
  destruct needle as [|d needle].
  { split.
    - intros _. exists "", "", s. split; [reflexivity|constructor].
    - intros _. rewrite includes_unfold. reflexivity. }
  destruct (plain_head _ _ Hp) as [Hd _]. split.
  - induction s as [s IH] using string_length_ind.
    rewrite includes_unfold. intros H. apply orb_true_iff in H as [H|H].
    { apply (startsWith_reads _ Hp) in H as (u & post & -> & Hu).
      now exists "", u, post. }
    destruct (toLowerCase_cases s)
      as [->|[[r ->]|[[r ->]|(c & r & -> & Hs)]]].
    + discriminate H.
    + rewrite toLowerCase_kelvin in H.
      apply IH in H as (pre & u & post & -> & Hu);
        [|cbn [kelvin_sign append String.length]; lia].
      exists (kelvin_sign ++ pre), u, post.
      split; [now rewrite append_assoc|exact Hu].
    + rewrite toLowerCase_dotted in H.
      rewrite includes_unfold in H. cbn [startsWith] in H.
      rewrite (plain_char_ascii d dot1 Hd) in H by (vm_compute; lia).
      cbn [andb orb] in H.
      rewrite includes_unfold in H. cbn [startsWith] in H.
      rewrite (plain_char_ascii d dot2 Hd) in H by (vm_compute; lia).
      cbn [andb orb] in H.
      apply IH in H as (pre & u & post & -> & Hu);
        [|cbn [dotted_I append String.length]; lia].
      exists (dotted_I ++ pre), u, post.
      split; [now rewrite append_assoc|exact Hu].
    + rewrite Hs in H.
      apply IH in H as (pre & u & post & -> & Hu);
        [|cbn [String.length]; lia].
      now exists (String c pre), u, post.
  - intros (pre & u & post & -> & Hu).
    destruct (reads_as_head _ _ _ Hu Hd) as (c & u' & -> & Hc).
    change (String c u' ++ post) with (String c (u' ++ post)).
    rewrite (toLowerCase_app_at _ _ _ Hc). apply includes_app_r.
    rewrite includes_unfold. apply orb_true_iff. left.
    apply (startsWith_reads _ Hp). now exists (String c u'), post.
Qed.

End StringFacts.

(** ** The effect monad *)

Section EffFacts.

Context {A B : Type}.

Lemma bind_lift_Return (a : A) (f : A -> Eff B) : bind (lift (Return a)) f = f a.
Proof. unfold bind, lift. now destruct (f a). Qed.

Lemma bind_lift_Throw (e : JsError) (f : A -> Eff B) :
  bind (lift (Throw e)) f = ([], Throw e).
Proof. reflexivity. Qed.

Lemma bind_Return (t : list Event) (a : A) (f : A -> Eff B) :
  bind (t, Return a) f = ((t ++ trace (f a))%list, outcome (f a)).
Proof. unfold bind, trace, outcome. now destruct (f a). Qed.

Lemma bind_Throw (t : list Event) (e : JsError) (f : A -> Eff B) :
  bind (t, Throw e) f = (t, Throw e).
Proof. reflexivity. Qed.

Lemma try_catch_Return (t : list Event) (a : A) (h : JsError -> Eff A) :
  try_catch (t, Return a) h = (t, Return a).
Proof. reflexivity. Qed.

Lemma try_catch_Throw (t : list Event) (e : JsError) (h : JsError -> Eff A) :
  try_catch (t, Throw e) h = ((t ++ trace (h e))%list, outcome (h e)).
Proof. unfold try_catch, trace, outcome. now destruct (h e). Qed.

End EffFacts.

(** ** The steps of the handler *)

Section Steps.

Variable engine : Engine.
Variable svc : Services.

Abbreviation handler := (handler engine svc).
Abbreviation try_block := (try_block engine svc).
Abbreviation parse_and_save := (parse_and_save engine svc).
Abbreviation catch_block := (catch_block engine).
Abbreviation error_response := (error_response engine).

Lemma catch_block_eq (e : JsError) :
  catch_block e
  = ([caught e],
     Return (error_response (fst (classify e)) (snd (classify e)))).
Proof.
  unfold catch_block, caught, emit, ret, bind.
  now destruct (classify e).
Qed.

(** A thrown error always ends as the response its classification
    gives. *)
Lemma try_catch_caught (t : list Event) (e : JsError) :
  try_catch (t, Throw e) catch_block
  = ((t ++ [caught e])%list,
     Return (error_response (fst (classify e)) (snd (classify e)))).
Proof. now rewrite try_catch_Throw, catch_block_eq. Qed.

Lemma handler_post (event : HandlerEvent.t) :
  HandlerEvent.httpMethod event = "POST" ->
  handler event = try_catch (try_block event) catch_block.
Proof.
  intros H. unfold handler. now rewrite H, String.eqb_refl.
Qed.

Lemma try_block_answered
  (event : HandlerEvent.t) (teamA teamB matchCategory : JSValue)
  (prompt : string) (response : option GenerateContentResponse) :
  provider_answers engine svc event teamA teamB matchCategory prompt response ->
  try_block event
  = (emit (CallGenerateContent prompt) ;;;
     predictionText <- check_response response ;;
     parse_and_save teamA teamB matchCategory predictionText).
Proof.
  intros (_ & (parsed & Hparse & Hfields) & Hnew & Hprompt & Hanswer).
  unfold try_block.
  rewrite Hparse, bind_lift_Return, Hfields, bind_lift_Return.
  cbv beta iota.
  rewrite Hnew, bind_lift_Return, Hprompt, bind_lift_Return.
  now rewrite Hanswer, bind_lift_Return.
Qed.

Lemma check_response_blocked
  (response : option GenerateContentResponse) (reason : string) :
  prompt_blockReason response = Some reason ->
  truthy reason = true ->
  check_response response
  = ([ConsoleWarn ("Gemini prompt was blocked for safety reasons: " ++ reason)],
     Throw (Error (prompt_blocked reason))).
Proof.
  intros H Ht. unfold check_response. rewrite H. simpl truthy_opt.
  rewrite Ht. reflexivity.
Qed.

Lemma check_response_empty (response : option GenerateContentResponse) :
  truthy_opt (prompt_blockReason response) = false ->
  lacks_text (first_candidate response) = true ->
  let reason :=
    or_else (chain (first_candidate response) finishReason) "NO_CANDIDATE" in
  check_response response
  = ([ConsoleWarn ("Gemini returned an invalid or empty response. Finish Reason: "
                   ++ reason)],
     Throw (Error (userMessage reason))).
Proof.
  intros Hb Hl reason. unfold check_response. rewrite Hb, Hl. reflexivity.
Qed.

Lemma passes_checks_iff
  (response : option GenerateContentResponse) (predictionText : string) :
  passes_checks response predictionText
  <-> truthy_opt (prompt_blockReason response) = false
      /\ lacks_text (first_candidate response) = false
      /\ render (chain (first_candidate response) candidate_text)
         = predictionText.
Proof.
  unfold passes_checks, lacks_text. split.
  - intros (Hb & c & -> & Ht & Hn). simpl. rewrite Ht. simpl. now rewrite Hn.
  - intros (Hb & Hl & Hr). split; [exact Hb|].
    destruct (first_candidate response) as [c|]; [|discriminate].
    exists c. simpl in Hr. destruct (candidate_text c) as [t|]; [|discriminate].
    simpl in Hl, Hr. subst t. apply negb_false_iff in Hl. now repeat split.
Qed.

Lemma check_response_passes
  (response : option GenerateContentResponse) (predictionText : string) :
  passes_checks response predictionText ->
  check_response response
  = (unexpected_finish (first_candidate response), Return predictionText).
Proof.
  intros H. apply passes_checks_iff in H as (Hb & Hl & Hr).
  unfold check_response. rewrite Hb, Hl, Hr.
  rewrite bind_Return. unfold ret, trace, outcome. simpl.
  now rewrite app_nil_r.
Qed.

(** The response meets exactly one of the three cases of lines 121-145. *)
Lemma check_response_cases (response : option GenerateContentResponse) :
  (exists reason,
      prompt_blockReason response = Some reason /\ truthy reason = true)
  \/ (truthy_opt (prompt_blockReason response) = false
      /\ lacks_text (first_candidate response) = true)
  \/ (exists predictionText, passes_checks response predictionText).
Proof.
  destruct (truthy_opt (prompt_blockReason response)) eqn:Hb.
  - left. destruct (prompt_blockReason response) as [reason|]; [|discriminate].
    now exists reason.
  - right. destruct (lacks_text (first_candidate response)) eqn:Hl.
    + now left.
    + right. eexists. apply passes_checks_iff. now repeat split.
Qed.

Lemma parse_and_save_invalid
  (teamA teamB matchCategory : JSValue) (predictionText : string) (e : JsError) :
  JSON_parse engine predictionText = Throw e ->
  parse_and_save teamA teamB matchCategory predictionText
  = ([ConsoleError ("Failed to parse JSON from Gemini: " ++ predictionText)],
     Throw (Error invalid_json)).
Proof.
  intros H. unfold parse_and_save. rewrite H. reflexivity.
Qed.

Lemma parse_and_save_rejected
  (teamA teamB matchCategory : JSValue) (predictionText : string)
  (predictionData : JSValue) (dbError : PostgrestError) :
  JSON_parse engine predictionText = Return predictionData ->
  let row := prediction_row teamA teamB matchCategory predictionData in
  error (insert svc row) = Some dbError ->
  parse_and_save teamA teamB matchCategory predictionText
  = ([CallInsert row;
      ConsoleError ("Supabase DB Error: " ++ error_message dbError)],
     Throw (Error (save_failed (error_message dbError)))).
Proof.
  intros H row Hdb. unfold parse_and_save. rewrite H.
  unfold lift, try_catch. rewrite bind_Return. fold row. rewrite Hdb.
  reflexivity.
Qed.

Lemma parse_and_save_saved
  (teamA teamB matchCategory : JSValue) (predictionText : string)
  (predictionData : JSValue) :
  JSON_parse engine predictionText = Return predictionData ->
  let row := prediction_row teamA teamB matchCategory predictionData in
  error (insert svc row) = None ->
  parse_and_save teamA teamB matchCategory predictionText
  = ([CallInsert row],
     Return {| HandlerResponse.statusCode := 200;
               HandlerResponse.headers := json_headers;
               HandlerResponse.body :=
                 JSON_stringify engine (data (insert svc row)) |}).
Proof.
  intros H row Hdb. unfold parse_and_save. rewrite H.
  unfold lift, try_catch. rewrite bind_Return. fold row. rewrite Hdb.
  reflexivity.
Qed.

(** Runs the binds of a computation whose steps are known. *)
Ltac run :=
  unfold emit, ret, throw, lift;
  repeat (first [rewrite bind_Return | rewrite bind_Throw]; cbv beta);
  unfold trace, outcome; cbn [fst snd app].

(** ** The runs of the handler, case by case *)

Section Runs.

Variables (event : HandlerEvent.t) (teamA teamB matchCategory : JSValue).
Variables (prompt : string) (response : option GenerateContentResponse).
Hypothesis answered :
  provider_answers engine svc event teamA teamB matchCategory prompt response.

Lemma handler_answered :
  handler event
  = try_catch
      (emit (CallGenerateContent prompt) ;;;
       predictionText <- check_response response ;;
       parse_and_save teamA teamB matchCategory predictionText)
      catch_block.
Proof.
  rewrite (handler_post event (proj1 answered)).
  now rewrite (try_block_answered _ _ _ _ _ _ answered).
Qed.

Lemma handler_blocked (reason : string) :
  prompt_blockReason response = Some reason ->
  truthy reason = true ->
  let e := Error (prompt_blocked reason) in
  handler event
  = ([CallGenerateContent prompt;
      ConsoleWarn ("Gemini prompt was blocked for safety reasons: " ++ reason);
      caught e],
     Return (error_response (fst (classify e)) (snd (classify e)))).
Proof.
  intros Hb Ht e. rewrite handler_answered.
  rewrite (check_response_blocked _ _ Hb Ht). run.
  now rewrite try_catch_caught.
Qed.

Lemma handler_empty :
  truthy_opt (prompt_blockReason response) = false ->
  lacks_text (first_candidate response) = true ->
  let reason :=
    or_else (chain (first_candidate response) finishReason) "NO_CANDIDATE" in
  let e := Error (userMessage reason) in
  handler event
  = ([CallGenerateContent prompt;
      ConsoleWarn ("Gemini returned an invalid or empty response. Finish Reason: "
                   ++ reason);
      caught e],
     Return (error_response (fst (classify e)) (snd (classify e)))).
Proof.
  intros Hb Hl reason e. rewrite handler_answered.
  rewrite (check_response_empty _ Hb Hl). run.
  now rewrite try_catch_caught.
Qed.

Lemma handler_checked (predictionText : string) :
  passes_checks response predictionText ->
  handler event
  = try_catch
      ((CallGenerateContent prompt
          :: unexpected_finish (first_candidate response), Return tt) ;;;
       parse_and_save teamA teamB matchCategory predictionText)
      catch_block.
Proof.
  intros Hp. rewrite handler_answered.
  rewrite (check_response_passes _ _ Hp). run.
  reflexivity.
Qed.

Lemma handler_invalid (predictionText : string) (syntaxError : JsError) :
  passes_checks response predictionText ->
  JSON_parse engine predictionText = Throw syntaxError ->
  let e := Error invalid_json in
  handler event
  = ((CallGenerateContent prompt
        :: unexpected_finish (first_candidate response)
        ++ [ConsoleError ("Failed to parse JSON from Gemini: " ++ predictionText);
            caught e])%list,
     Return (error_response (fst (classify e)) (snd (classify e)))).
Proof.
  intros Hp Hj e. rewrite (handler_checked _ Hp).
  rewrite (parse_and_save_invalid _ _ _ _ _ Hj). run.
  rewrite try_catch_caught. cbn [app]. now rewrite <- app_assoc.
Qed.

Lemma handler_rejected
  (predictionText : string) (predictionData : JSValue)
  (dbError : PostgrestError) :
  passes_checks response predictionText ->
  JSON_parse engine predictionText = Return predictionData ->
  let row := prediction_row teamA teamB matchCategory predictionData in
  error (insert svc row) = Some dbError ->
  let e := Error (save_failed (error_message dbError)) in
  handler event
  = ((CallGenerateContent prompt
        :: unexpected_finish (first_candidate response)
        ++ [CallInsert row;
            ConsoleError ("Supabase DB Error: " ++ error_message dbError);
            caught e])%list,
     Return (error_response (fst (classify e)) (snd (classify e)))).
Proof.
  intros Hp Hj row Hdb e. rewrite (handler_checked _ Hp).
  rewrite (parse_and_save_rejected _ _ _ _ _ _ Hj Hdb). run.
  rewrite try_catch_caught. cbn [app]. now rewrite <- app_assoc.
Qed.

Lemma handler_saved (predictionText : string) (predictionData : JSValue) :
  passes_checks response predictionText ->
  JSON_parse engine predictionText = Return predictionData ->
  let row := prediction_row teamA teamB matchCategory predictionData in
  error (insert svc row) = None ->
  handler event
  = ((CallGenerateContent prompt
        :: unexpected_finish (first_candidate response)
        ++ [CallInsert row])%list,
     Return {| HandlerResponse.statusCode := 200;
               HandlerResponse.headers := json_headers;
               HandlerResponse.body :=
                 JSON_stringify engine (data (insert svc row)) |}).
Proof.
  intros Hp Hj row Hdb. rewrite (handler_checked _ Hp).
  rewrite (parse_and_save_saved _ _ _ _ _ Hj Hdb). run.
  now rewrite try_catch_Return.
Qed.

End Runs.

End Steps.

(** ** Classification *)

Section ClassifyFacts.















End ClassifyFacts.

(** ** Traces *)

Section TraceFacts.

Lemma inserts_app (t u : list Event) :
  inserts (t ++ u) = (inserts t ++ inserts u)%list.
Proof. apply filter_app. Qed.

Lemma outbound_app (t u : list Event) :
  outbound (t ++ u) = (outbound t ++ outbound u)%list.
Proof. apply filter_app. Qed.

Lemma inserts_unexpected_finish (candidate : option Candidate) :
  inserts (unexpected_finish candidate) = [].
Proof. unfold unexpected_finish. now destruct (negb _). Qed.

Lemma outbound_unexpected_finish (candidate : option Candidate) :
  outbound (unexpected_finish candidate) = [].
Proof. unfold unexpected_finish. now destruct (negb _). Qed.

Lemma In_inserts (ev : Event) (t : list Event) :
  is_insert ev = true -> In ev t -> In ev (inserts t).
Proof. intros H Hin. apply filter_In. now split. Qed.

End TraceFacts.

(** ** The sample world *)

Section SampleFacts.

Lemma sample_answered
  (response : option GenerateContentResponse)
  (store : JSValue -> PostgrestResponse) :
  provider_answers Sample.node (Sample.services response store)
    Sample.match_request
    (JSString "Arsenal") (JSString "Chelsea") (JSString "men")
    Sample.prompt response.
Proof.
  unfold provider_answers. split; [reflexivity|]. split.
  - exists Sample.request. split; reflexivity.
  - repeat split.
Qed.

Lemma sample_passes (reason : option string) (predictionText : string) :
  truthy predictionText = true ->
  passes_checks (Sample.answer reason (Some predictionText)) predictionText.
Proof.
  intros H. split; [reflexivity|]. eexists. repeat split. exact H.
Qed.

Lemma saving_stored_as (columns : list (string * JSValue)) :
  has_own "id" columns = false ->
  stored_as (JSObject columns) (data (Sample.saving (JSObject columns))).
Proof.
  intros Hid k Hk. unfold Sample.saving. cbn [data get lookup].
  destruct ("id" =? k) eqn:E; [|reflexivity].
  apply String.eqb_eq in E. subst k. congruence.
Qed.

End SampleFacts.

(** * The handler's contract *)

Section Contract.

Variable engine : Engine.
Variable svc : Services.

Abbreviation handler := (handler engine svc).
Abbreviation error_response := (error_response engine).
Abbreviation provider_answers := (provider_answers engine svc).

(** C1. When the body of a POST parses to the three fields, the provider
    answers with a candidate whose text parses as JSON, and the insert
    succeeds, returning the inserted row, the handler answers 200 with
    that row as its body; the insert is performed once, with a row that
    echoes [teamA], [teamB] and [matchCategory] and has status
    ['pending'], and the returned row carries them too. *)
Theorem saved_prediction_returned
  (event : HandlerEvent.t) (teamA teamB matchCategory : JSValue)
  (prompt : string) (response : option GenerateContentResponse)
  (predictionText : string) (predictionData saved : JSValue) :
  provider_answers event teamA teamB matchCategory prompt response ->
  passes_checks response predictionText ->
  JSON_parse engine predictionText = Return predictionData ->
  insert svc (prediction_row teamA teamB matchCategory predictionData)
  = {| data := saved; error := None |} ->
  stored_as (prediction_row teamA teamB matchCategory predictionData) saved ->
  outcome (handler event)
  = Return {| HandlerResponse.statusCode := 200;
              HandlerResponse.headers := json_headers;
              HandlerResponse.body := JSON_stringify engine saved |}
  /\ inserts (trace (handler event))
     = [CallInsert (prediction_row teamA teamB matchCategory predictionData)]
  /\ get saved "team_a" = teamA
  /\ get saved "team_b" = teamB
  /\ get saved "match_category" = matchCategory
  /\ get saved "status" = JSString "pending".
Proof.
  intros Ha Hp Hj Hdb Hs.
  assert (Herr : error (insert svc
                          (prediction_row teamA teamB matchCategory
                             predictionData)) = None) by now rewrite Hdb.
  rewrite (handler_saved _ _ _ _ _ _ _ _ Ha _ _ Hp Hj Herr), Hdb.
  unfold outcome, trace. cbn [fst snd data]. split; [reflexivity|]. split.
  - change (CallGenerateContent prompt
              :: unexpected_finish (first_candidate response) ++ ?t)%list
      with ([CallGenerateContent prompt]
              ++ unexpected_finish (first_candidate response) ++ t)%list.
    now rewrite !inserts_app, inserts_unexpected_finish.
  - unfold stored_as, prediction_row in Hs.
    repeat split; apply Hs; reflexivity.
Qed.








(** C8. A request whose method is not POST is answered 405, and the
    handler performs no effect at all: neither the AI-completion call
    nor the database insert. *)
Theorem method_not_allowed (event : HandlerEvent.t) :
  HandlerEvent.httpMethod event <> "POST" ->
  outcome (handler event)
  = Return {| HandlerResponse.statusCode := 405;
              HandlerResponse.headers := None;
              HandlerResponse.body := error_body engine "Method Not Allowed" |}
  /\ trace (handler event) = []
  /\ outbound (trace (handler event)) = [].
Proof.
  intros H. apply String.eqb_neq in H.
  unfold handler. rewrite H. now repeat split.
Qed.

(** A POST either fails before the provider is called, or fails in the
    call, or is answered. *)
Lemma try_block_cases (event : HandlerEvent.t) :
  (exists e, try_block engine svc event = ([], Throw e))
  \/ (exists prompt e,
         try_block engine svc event
         = ([CallGenerateContent prompt], Throw e))
  \/ (HandlerEvent.httpMethod event = "POST" ->
      exists teamA teamB matchCategory prompt response,
        provider_answers event teamA teamB matchCategory prompt response).
Proof.
  unfold try_block.
  destruct (JSON_parse engine _) as [parsed|e] eqn:Hparse;
    [|left; now exists e].
  rewrite bind_lift_Return.
  destruct (destructure engine parsed) as [[[teamA teamB] matchCategory]|e]
    eqn:Hfields; [|left; now exists e].
  rewrite bind_lift_Return. cbv beta iota.
  destruct (GoogleGenAI_new svc) as [[]|e] eqn:Hnew; [|left; now exists e].
  rewrite bind_lift_Return.
  destruct (build_prompt engine teamA teamB matchCategory) as [prompt|e]
    eqn:Hprompt; [|left; now exists e].
  rewrite bind_lift_Return.
  destruct (generateContent svc prompt) as [response|e] eqn:Hanswer.
  - right; right. intros Hm.
    exists teamA, teamB, matchCategory, prompt, response.
    split; [exact Hm|]. split; [now exists parsed|]. now repeat split.
  - right; left. now exists prompt, e.
Qed.

(** C9. In every run, an insert is performed only once the provider has
    been called and its answer has passed the block-reason check, the
    candidate and text check and the JSON parse: the call precedes the
    insert in the trace, the inserted row holds the parsed text, and no
    other insert is performed. *)
Theorem insert_follows_validation (event : HandlerEvent.t) (row : JSValue) :
  In (CallInsert row) (trace (handler event)) ->
  exists teamA teamB matchCategory prompt response
         predictionText predictionData before after,
    provider_answers event teamA teamB matchCategory prompt response
    /\ passes_checks response predictionText
    /\ JSON_parse engine predictionText = Return predictionData
    /\ row = prediction_row teamA teamB matchCategory predictionData
    /\ trace (handler event) = (before ++ CallInsert row :: after)%list
    /\ In (CallGenerateContent prompt) before
    /\ inserts before = []
    /\ inserts after = [].
Proof.
  intros Hin. apply (In_inserts (CallInsert row) _ eq_refl) in Hin.
  destruct (HandlerEvent.httpMethod event =? "POST") eqn:Hm.
  2:{ unfold handler in Hin. rewrite Hm in Hin. contradiction. }
  apply String.eqb_eq in Hm.
  destruct (try_block_cases event)
    as [[e He]|[(p & e & He)|Hanswered]].
  { rewrite (handler_post _ _ _ Hm), He, try_catch_caught in Hin.
    contradiction. }
  { rewrite (handler_post _ _ _ Hm), He, try_catch_caught in Hin.
    contradiction. }
  destruct (Hanswered Hm)
    as (teamA & teamB & matchCategory & prompt & response & Ha).
  destruct (check_response_cases response)
    as [(reason & Hb & Ht)|[[Hb Hl]|[predictionText Hp]]].
  { rewrite (handler_blocked _ _ _ _ _ _ _ _ Ha _ Hb Ht) in Hin.
    contradiction. }
  { rewrite (handler_empty _ _ _ _ _ _ _ _ Ha Hb Hl) in Hin.
    contradiction. }
  destruct (JSON_parse engine predictionText) as [predictionData|e] eqn:Hj.
  2:{ rewrite (handler_invalid _ _ _ _ _ _ _ _ Ha _ _ Hp Hj) in Hin.
      unfold trace in Hin. cbn [fst] in Hin.
      change (CallGenerateContent prompt
                :: unexpected_finish (first_candidate response) ++ ?t)%list
        with ([CallGenerateContent prompt]
                ++ unexpected_finish (first_candidate response) ++ t)%list
        in Hin.
      rewrite !inserts_app, inserts_unexpected_finish in Hin.
      contradiction. }
  set (saved := prediction_row teamA teamB matchCategory predictionData).
  assert (Hrun : exists after,
             trace (handler event)
             = ((CallGenerateContent prompt
                   :: unexpected_finish (first_candidate response))
                  ++ CallInsert saved :: after)%list
             /\ inserts after = []).
  { destruct (error (insert svc saved)) as [dbError|] eqn:Hdb.
    - rewrite (handler_rejected _ _ _ _ _ _ _ _ Ha _ _ _ Hp Hj Hdb).
      now eexists.
    - rewrite (handler_saved _ _ _ _ _ _ _ _ Ha _ _ Hp Hj Hdb).
      now exists []. }
  destruct Hrun as (after & Htrace & Hafter).
  assert (Hbefore : inserts (CallGenerateContent prompt
                               :: unexpected_finish (first_candidate response))
                    = []).
  { change (inserts ([CallGenerateContent prompt]
                       ++ unexpected_finish (first_candidate response)) = []).
    now rewrite inserts_app, inserts_unexpected_finish. }
  rewrite Htrace, inserts_app, Hbefore in Hin.
  change (inserts (CallInsert saved :: after))
    with (CallInsert saved :: inserts after) in Hin.
  rewrite Hafter in Hin. destruct Hin as [Hrow|[]].
  injection Hrow as <-.
  exists teamA, teamB, matchCategory, prompt, response,
    predictionText, predictionData,
    (CallGenerateContent prompt
       :: unexpected_finish (first_candidate response)), after.
  split; [exact Ha|]. split; [exact Hp|]. split; [exact Hj|].
  split; [reflexivity|]. split; [exact Htrace|]. split; [now left|].
  now split.
Qed.

Lemma try_catch_after {A : Type}
  (t : list Event) (m : Eff A) (h : JsError -> Eff A) :
  try_catch ((t, Return tt) ;;; m) h
  = ((t ++ trace (try_catch m h))%list, outcome (try_catch m h)).
Proof.
  rewrite bind_Return. cbv beta.
  destruct m as [u [a|e]]; unfold trace, outcome; cbn [fst snd].
  - now rewrite !try_catch_Return.
  - rewrite !try_catch_Throw. unfold trace, outcome. cbn [fst snd].
    now rewrite app_assoc.
Qed.

Lemma trace_try_catch (m : Eff HandlerResponse.t) :
  exists logged,
    trace (try_catch m (catch_block engine)) = (trace m ++ logged)%list
    /\ outbound logged = [].
Proof.
  destruct m as [t [a|e]].
  - exists []. rewrite try_catch_Return. unfold trace. cbn [fst].
    now rewrite app_nil_r.
  - exists [caught e]. now rewrite try_catch_caught.
Qed.

Lemma parse_and_save_inserts
  (teamA teamB matchCategory : JSValue) (predictionText : string)
  (predictionData : JSValue) :
  JSON_parse engine predictionText = Return predictionData ->
  exists rest,
    trace (parse_and_save engine svc teamA teamB matchCategory predictionText)
    = CallInsert (prediction_row teamA teamB matchCategory predictionData)
        :: rest.
Proof.
  intros Hj.
  destruct (error (insert svc (prediction_row teamA teamB matchCategory
                                 predictionData))) as [dbError|] eqn:Hdb.
  - rewrite (parse_and_save_rejected _ _ _ _ _ _ _ _ Hj Hdb). now eexists.
  - rewrite (parse_and_save_saved _ _ _ _ _ _ _ Hj Hdb). now eexists.
Qed.

(** C10. When the first candidate carries a non-empty text (and the
    prompt was not blocked), validation succeeds whatever the finish
    reason: the handler goes on to parse the text and to save it, its
    answer and its outbound calls are those of parsing and saving that
    text, and the finish reason only decides whether a warning is
    written to the console. *)
Theorem finish_reason_ignored
  (event : HandlerEvent.t) (teamA teamB matchCategory : JSValue)
  (prompt : string) (response : option GenerateContentResponse)
  (candidate : Candidate) (predictionText : string) :
  provider_answers event teamA teamB matchCategory prompt response ->
  truthy_opt (prompt_blockReason response) = false ->
  first_candidate response = Some candidate ->
  candidate_text candidate = Some predictionText ->
  truthy predictionText = true ->
  let save := parse_and_save engine svc teamA teamB matchCategory predictionText in
  let warning :=
    if strict_eq (finishReason candidate) "STOP" then []
    else [ConsoleWarn ("Gemini generation finished unexpectedly. Reason: "
                       ++ render (finishReason candidate))] in
  check_response response = (warning, Return predictionText)
  /\ outcome (handler event) = outcome (try_catch save (catch_block engine))
  /\ trace (handler event)
     = (CallGenerateContent prompt
          :: warning ++ trace (try_catch save (catch_block engine)))%list
  /\ outbound (trace (handler event))
     = CallGenerateContent prompt :: outbound (trace save)
  /\ forall predictionData,
       JSON_parse engine predictionText = Return predictionData ->
       In (CallInsert (prediction_row teamA teamB matchCategory predictionData))
          (trace (handler event)).
Proof.
  intros Ha Hb Hc Ht Hn save warning.
  assert (Hp : passes_checks response predictionText).
  { split; [exact Hb|]. now exists candidate. }
  assert (Hw : unexpected_finish (first_candidate response) = warning).
  { rewrite Hc. unfold unexpected_finish, warning. simpl chain.
    now destruct (strict_eq (finishReason candidate) "STOP"). }
  assert (Hwarn : outbound warning = [])
    by (rewrite <- Hw; apply outbound_unexpected_finish).
  rewrite (handler_checked _ _ _ _ _ _ _ _ Ha _ Hp), Hw.
  rewrite (check_response_passes _ _ Hp), Hw.
  fold save. rewrite try_catch_after. unfold trace at 1 2, outcome at 1.
  cbn [fst snd]. split; [reflexivity|]. split; [reflexivity|].
  split; [reflexivity|].
  destruct (trace_try_catch save) as (logged & -> & Hlogged). split.
  - change (outbound ([CallGenerateContent prompt]
                        ++ warning ++ trace save ++ logged)
            = CallGenerateContent prompt :: outbound (trace save)).
    rewrite !outbound_app, Hwarn, Hlogged. simpl. now rewrite app_nil_r.
  - intros predictionData Hj. right. apply in_or_app. right.
    apply in_or_app. left.
    destruct (parse_and_save_inserts teamA teamB matchCategory _ _ Hj)
      as [rest Hrest].
    fold save in Hrest. rewrite Hrest. now left.
Qed.

End Contract.

(** * The contract on the sample world *)

Section Examples.

Import Sample.

Let home : JSValue := JSString "Arsenal".
Let away : JSValue := JSString "Chelsea".
Let category : JSValue := JSString "men".
Let row : JSValue := prediction_row home away category prediction.

Lemma saved_prediction_returned_witness :
  let response := answer (Some "STOP") (Some (stringify prediction)) in
  let svc := services response saving in
  outcome (handler node svc match_request)
  = Return {| HandlerResponse.statusCode := 200;
              HandlerResponse.headers := json_headers;
              HandlerResponse.body := stringify (data (saving row)) |}
  /\ inserts (trace (handler node svc match_request)) = [CallInsert row]
  /\ get (data (saving row)) "team_a" = home
  /\ get (data (saving row)) "team_b" = away
  /\ get (data (saving row)) "match_category" = category
  /\ get (data (saving row)) "status" = JSString "pending".
Proof.
  intros response svc.
  apply (saved_prediction_returned node svc match_request home away category
           prompt response (stringify prediction) prediction
           (data (saving row))).
  - apply sample_answered.
  - apply sample_passes. reflexivity.
  - reflexivity.
  - reflexivity.
  - apply saving_stored_as. reflexivity.
Defined.



(** U+212A KELVIN SIGN stands for a K: the message is answered 401. *)
Lemma kelvin_sign_reads_as_k :
  classify (Error ("API " ++ kelvin_sign ++ "ey not valid"))
  = (401%Z, api_key_error)
  /\ contains_ignoring_case ("API " ++ kelvin_sign ++ "ey not valid")
       "api key not valid".
Proof.
  split; [reflexivity|]. apply includes_reads; reflexivity.
Qed.


(** C5. The code at two storage failures.  The message of the first is
    the one PostgREST gives when [single()] finds no row; the second is
    the operating system's, as PostgreSQL relays it.  The insert is
    performed once in both runs, yet the first is answered 500 with the
    ['[Invalid Response]'] prefix and the store's own message, in which
    ['Database Error'] does not occur, and the second is answered 429. *)
Theorem storage_failure_misreported :
  let response := answer (Some "STOP") (Some (stringify prediction)) in
  let no_row := "JSON object requested, multiple (or no) rows returned" in
  let disk := "could not extend file: Disk quota exceeded" in
  (outcome (handler node (services response (failing no_row)) match_request)
   = Return (error_response node 500
               ("[Invalid Response] " ++ save_failed no_row))
   /\ includes ("[Invalid Response] " ++ save_failed no_row) "Database Error"
      = false
   /\ inserts (trace (handler node (services response (failing no_row))
                        match_request))
      = [CallInsert row])
  /\ (outcome (handler node (services response (failing disk)) match_request)
      = Return (error_response node 429 quota_error)
      /\ inserts (trace (handler node (services response (failing disk))
                           match_request))
         = [CallInsert row]).
Proof. vm_compute. repeat split. Qed.





Lemma method_not_allowed_witness :
  let svc := services (answer (Some "STOP") None) saving in
  outcome (handler node svc get_request)
  = Return {| HandlerResponse.statusCode := 405;
              HandlerResponse.headers := None;
              HandlerResponse.body := error_body node "Method Not Allowed" |}
  /\ trace (handler node svc get_request) = []
  /\ outbound (trace (handler node svc get_request)) = [].
Proof.
  intros svc. apply (method_not_allowed node svc get_request).
  vm_compute. discriminate.
Defined.

Lemma insert_follows_validation_witness :
  let response := answer (Some "STOP") (Some (stringify prediction)) in
  let svc := services response saving in
  exists teamA teamB matchCategory prompt response
         predictionText predictionData before after,
    provider_answers node svc match_request teamA teamB matchCategory
      prompt response
    /\ passes_checks response predictionText
    /\ JSON_parse node predictionText = Return predictionData
    /\ row = prediction_row teamA teamB matchCategory predictionData
    /\ trace (handler node svc match_request)
       = (before ++ CallInsert row :: after)%list
    /\ In (CallGenerateContent prompt) before
    /\ inserts before = []
    /\ inserts after = [].
Proof.
  intros response svc.
  apply (insert_follows_validation node svc match_request row).
  vm_compute. right. left. reflexivity.
Defined.

Lemma finish_reason_ignored_witness :
  let text := stringify prediction in
  let response := answer (Some "MAX_TOKENS") (Some text) in
  let svc := services response saving in
  let save := parse_and_save node svc home away category text in
  let warning :=
    [ConsoleWarn "Gemini generation finished unexpectedly. Reason: MAX_TOKENS"] in
  check_response response = (warning, Return text)
  /\ outcome (handler node svc match_request)
     = outcome (try_catch save (catch_block node))
  /\ trace (handler node svc match_request)
     = (CallGenerateContent prompt
          :: warning ++ trace (try_catch save (catch_block node)))%list
  /\ outbound (trace (handler node svc match_request))
     = CallGenerateContent prompt :: outbound (trace save)
  /\ forall predictionData,
       JSON_parse node text = Return predictionData ->
       In (CallInsert (prediction_row home away category predictionData))
          (trace (handler node svc match_request)).
Proof.
  intros text response svc save warning.
  apply (finish_reason_ignored node svc match_request home away category
           prompt response
           {| content := Some {| parts := Some [ {| text := Some text |} ] |};
              finishReason := Some "MAX_TOKENS" |}
           text).
  - apply sample_answered.
  - reflexivity.
  - reflexivity.
  - reflexivity.
  - reflexivity.
Defined.

(** With that finish reason and a text that parses, the answer is 200. *)
Lemma finish_reason_ignored_example :
  let response := answer (Some "MAX_TOKENS") (Some (stringify prediction)) in
  let svc := services response saving in
  outcome (handler node svc match_request)
  = Return {| HandlerResponse.statusCode := 200;
              HandlerResponse.headers := json_headers;
              HandlerResponse.body := stringify (data (saving row)) |}.
Proof. reflexivity. Qed.

End Examples.

(** * Further properties of the handler *)

Section Further.

Variable engine : Engine.
Variable svc : Services.

Abbreviation handler := (handler engine svc).
Abbreviation try_block := (try_block engine svc).
Abbreviation catch_block := (catch_block engine).
Abbreviation error_response := (error_response engine).
Abbreviation provider_answers := (provider_answers engine svc).
Abbreviation prompt_built := (prompt_built engine svc).

(** The response of the [catch] block to [e]. *)
Abbreviation answer_to e :=
  (error_response (fst (classify e)) (snd (classify e))).

Lemma classify_status (error : JsError) :
  In (fst (classify error)) [400; 401; 429; 500]%Z.
Proof.
  unfold classify.
  repeat match goal with
         | |- context [if ?b then _ else _] => destruct b
         end; cbn [fst In]; auto 6.
Qed.


Lemma lookup_absent (k : string) (ps : list (string * JSValue)) :
  has_own k ps = false -> lookup k ps = JSUndefined.
Proof.
  induction ps as [|[k' v] ps IH]; [reflexivity|].
  unfold has_own. cbn [existsb fst lookup]. intros H.
  apply orb_false_iff in H as [Hk H]. rewrite Hk. now apply IH.
Qed.

Lemma outbound_In_insert (row : JSValue) (t : list Event) :
  In (CallInsert row) t -> In (CallInsert row) (outbound t).
Proof. intros H. apply filter_In. now split. Qed.

Lemma try_block_sent
  (event : HandlerEvent.t) (teamA teamB matchCategory : JSValue)
  (prompt : string) :
  prompt_built event teamA teamB matchCategory prompt ->
  try_block event
  = (emit (CallGenerateContent prompt) ;;;
     response <- lift (generateContent svc prompt) ;;
     predictionText <- check_response response ;;
     parse_and_save engine svc teamA teamB matchCategory predictionText).
Proof.
  intros (_ & (parsed & Hparse & Hfields) & Hnew & Hprompt).
  unfold try_block.
  rewrite Hparse, bind_lift_Return, Hfields, bind_lift_Return.
  cbv beta iota.
  now rewrite Hnew, bind_lift_Return, Hprompt, bind_lift_Return.
Qed.

Lemma handler_provider_failure
  (event : HandlerEvent.t) (teamA teamB matchCategory : JSValue)
  (prompt : string) (e : JsError) :
  prompt_built event teamA teamB matchCategory prompt ->
  generateContent svc prompt = Throw e ->
  handler event
  = ([CallGenerateContent prompt; caught e], Return (answer_to e)).
Proof.
  intros Hb He.
  rewrite (handler_post _ _ _ (proj1 Hb)), (try_block_sent _ _ _ _ _ Hb).
  rewrite He, bind_lift_Throw. unfold emit. rewrite bind_Return.
  unfold trace, outcome. cbn [fst snd app].
  now rewrite try_catch_caught.
Qed.

(** Every run of a POST: either it ends in the [catch] block, after no
    outbound call, after the provider call alone, or after the provider
    call and an insert that failed; or it ends with the saved row. *)
Lemma handler_post_cases (event : HandlerEvent.t) :
  HandlerEvent.httpMethod event = "POST" ->
  (exists before e,
      handler event = ((before ++ [caught e])%list, Return (answer_to e))
      /\ (outbound before = []
          \/ (exists prompt, outbound before = [CallGenerateContent prompt])
          \/ (exists prompt row dbError,
                 outbound before = [CallGenerateContent prompt; CallInsert row]
                 /\ error (insert svc row) = Some dbError)))
  \/ (exists prompt warnings row,
         handler event
         = ((CallGenerateContent prompt :: warnings ++ [CallInsert row])%list,
            Return {| HandlerResponse.statusCode := 200;
                      HandlerResponse.headers := json_headers;
                      HandlerResponse.body :=
                        JSON_stringify engine (data (insert svc row)) |})
         /\ outbound warnings = []
         /\ error (insert svc row) = None).
Proof.
  intros Hm.
  destruct (try_block_cases engine svc event)
    as [[e He]|[(p & e & He)|Hanswered]].
  { left. exists [], e. split; [|now left].
    now rewrite (handler_post _ _ _ Hm), He, try_catch_caught. }
  { left. exists [CallGenerateContent p], e. split; [|right; left; now exists p].
    now rewrite (handler_post _ _ _ Hm), He, try_catch_caught. }
  destruct (Hanswered Hm)
    as (teamA & teamB & matchCategory & prompt & response & Ha).
  destruct (check_response_cases response)
    as [(reason & Hb & Ht)|[[Hb Hl]|[predictionText Hp]]].
  { left. eexists [_; _], _. split.
    - exact (handler_blocked _ _ _ _ _ _ _ _ Ha _ Hb Ht).
    - right; left. now exists prompt. }
  { left. eexists [_; _], _. split.
    - exact (handler_empty _ _ _ _ _ _ _ _ Ha Hb Hl).
    - right; left. now exists prompt. }
  assert (Hw : forall t,
             outbound ((CallGenerateContent prompt
                          :: unexpected_finish (first_candidate response)) ++ t)
             = CallGenerateContent prompt :: outbound t).
  { intros t.
    change (outbound ([CallGenerateContent prompt]
                        ++ unexpected_finish (first_candidate response) ++ t)
            = CallGenerateContent prompt :: outbound t).
    now rewrite !outbound_app, outbound_unexpected_finish. }
  destruct (JSON_parse engine predictionText) as [predictionData|e] eqn:Hj.
  2:{ left.
      exists ((CallGenerateContent prompt
                 :: unexpected_finish (first_candidate response))
                ++ [ConsoleError ("Failed to parse JSON from Gemini: "
                                  ++ predictionText)])%list,
        (Error invalid_json).
      split.
      - rewrite (handler_invalid _ _ _ _ _ _ _ _ Ha _ _ Hp Hj).
        f_equal. cbn [app]. now rewrite <- app_assoc.
      - right; left. exists prompt. now rewrite Hw. }
  set (row := prediction_row teamA teamB matchCategory predictionData).
  destruct (error (insert svc row)) as [dbError|] eqn:Hdb.
  - left.
    exists ((CallGenerateContent prompt
               :: unexpected_finish (first_candidate response))
              ++ [CallInsert row;
                  ConsoleError ("Supabase DB Error: "
                                ++ error_message dbError)])%list,
      (Error (save_failed (error_message dbError))).
    split.
    + rewrite (handler_rejected _ _ _ _ _ _ _ _ Ha _ _ _ Hp Hj Hdb).
      f_equal. cbn [app]. now rewrite <- app_assoc.
    + right; right. exists prompt, row, dbError. now rewrite Hw.
  - right. exists prompt, (unexpected_finish (first_candidate response)), row.
    split; [|split].
    + exact (handler_saved _ _ _ _ _ _ _ _ Ha _ _ Hp Hj Hdb).
    + apply outbound_unexpected_finish.
    + exact Hdb.
Qed.

(** X1. The handler never lets an exception escape: every request is
    answered, with one of the statuses 200, 400, 401, 405, 429 and 500;
    the status is 405 exactly for the methods other than POST, and every
    other answer carries the JSON content type. *)
Theorem handler_always_responds (event : HandlerEvent.t) :
  exists r,
    outcome (handler event) = Return r
    /\ In (HandlerResponse.statusCode r) [200; 400; 401; 405; 429; 500]%Z
    /\ (HandlerResponse.statusCode r = 405%Z
        <-> HandlerEvent.httpMethod event <> "POST")
    /\ (HandlerResponse.statusCode r <> 405%Z ->
        HandlerResponse.headers r = json_headers).
Proof.
  destruct (HandlerEvent.httpMethod event =? "POST") eqn:Hm.
  - apply String.eqb_eq in Hm.
    destruct (handler_post_cases event Hm)
      as [(before & e & Hrun & _)|(p & ws & row & Hrun & _)]; rewrite Hrun.
    + exists (answer_to e). split; [reflexivity|].
      unfold error_response.
      cbn [HandlerResponse.statusCode HandlerResponse.headers].
      pose proof (classify_status e) as Hs. cbn [In] in Hs.
      split; [cbn [In]; intuition|]. split; [|reflexivity].
      split; [intros H; rewrite H in Hs; intuition discriminate|].
      intros H. now elim H.
    + eexists. split; [reflexivity|].
      cbn [HandlerResponse.statusCode HandlerResponse.headers].
      split; [now left|]. split; [|reflexivity].
      split; [discriminate|]. intros H. now elim H.
  - pose proof Hm as Hneq. apply String.eqb_neq in Hneq.
    unfold handler. rewrite Hm. eexists. split; [reflexivity|].
    cbn [negb HandlerResponse.statusCode HandlerResponse.headers].
    split; [cbn [In]; auto 6|]. split; [now split|]. intros H. now elim H.
Qed.

(** X2. In every run the outbound calls are, in this order, at most one
    AI-completion call and at most one insert, and there is no insert
    without the AI-completion call: nothing is retried. *)
Theorem outbound_calls_once (event : HandlerEvent.t) :
  outbound (trace (handler event)) = []
  \/ (exists prompt,
         outbound (trace (handler event)) = [CallGenerateContent prompt])
  \/ (exists prompt row,
         outbound (trace (handler event))
         = [CallGenerateContent prompt; CallInsert row]).
Proof.
  destruct (HandlerEvent.httpMethod event =? "POST") eqn:Hm.
  2:{ left. unfold handler. now rewrite Hm. }
  apply String.eqb_eq in Hm.
  destruct (handler_post_cases event Hm)
    as [(before & e & Hrun & Hout)|(p & ws & row & Hrun & Hws & _)];
    rewrite Hrun; unfold trace; cbn [fst].
  - rewrite outbound_app.
    change (outbound [caught e]) with (@nil Event). rewrite app_nil_r.
    destruct Hout as [H|[[p H]|(p & row & dbError & H & _)]].
    + now left.
    + right; left. now exists p.
    + right; right. now exists p, row.
  - right; right. exists p, row.
    change (outbound ([CallGenerateContent p] ++ ws ++ [CallInsert row])
            = [CallGenerateContent p; CallInsert row]).
    now rewrite !outbound_app, Hws.
Qed.

(** X3. The handler answers 200 exactly when it performed an insert that
    the store accepted, and the body is then the row the store returned
    for it: success is never reported without a saved row, and a saved
    row is never reported as an error. *)
Theorem success_iff_saved (event : HandlerEvent.t) (r : HandlerResponse.t) :
  outcome (handler event) = Return r ->
  (HandlerResponse.statusCode r = 200%Z ->
   exists row,
     In (CallInsert row) (trace (handler event))
     /\ error (insert svc row) = None
     /\ HandlerResponse.body r = JSON_stringify engine (data (insert svc row)))
  /\ ((exists row,
         In (CallInsert row) (trace (handler event))
         /\ error (insert svc row) = None) ->
      HandlerResponse.statusCode r = 200%Z).
Proof.
  destruct (HandlerEvent.httpMethod event =? "POST") eqn:Hm.
  2:{ unfold handler. rewrite Hm. unfold outcome, trace. cbn [negb fst snd ret].
      intros [= <-]. split; [discriminate|]. now intros (row & [] & _). }
  apply String.eqb_eq in Hm.
  destruct (handler_post_cases event Hm)
    as [(before & e & Hrun & Hout)|(p & ws & row & Hrun & Hws & Hdb)];
    rewrite Hrun; unfold outcome, trace; cbn [fst snd]; intros [= <-].
  - split.
    + unfold error_response. cbn [HandlerResponse.statusCode].
      intros H. pose proof (classify_status e) as Hs. rewrite H in Hs.
      cbn [In] in Hs. intuition discriminate.
    + intros (row & Hin & Hok). exfalso.
      apply outbound_In_insert in Hin. rewrite outbound_app in Hin.
      change (outbound [caught e]) with (@nil Event) in Hin.
      rewrite app_nil_r in Hin.
      destruct Hout as [H|[[p H]|(p & row' & dbError & H & Hfail)]];
        rewrite H in Hin; cbn [In] in Hin.
      * contradiction.
      * destruct Hin as [Hin|[]]. discriminate Hin.
      * destruct Hin as [Hin|[Hin|[]]]; [discriminate Hin|].
        injection Hin as <-. congruence.
  - split; [|reflexivity].
    intros _. exists row. split; [|now split].
    right. apply in_or_app. right. now left.
Qed.

(** X4. When the AI-completion call itself fails, the handler answers
    with the classification of the provider's error, after that one
    outbound call and without any insert. *)
Theorem provider_failure_classified
  (event : HandlerEvent.t) (teamA teamB matchCategory : JSValue)
  (prompt : string) (e : JsError) :
  prompt_built event teamA teamB matchCategory prompt ->
  generateContent svc prompt = Throw e ->
  outcome (handler event) = Return (answer_to e)
  /\ outbound (trace (handler event)) = [CallGenerateContent prompt]
  /\ inserts (trace (handler event)) = [].
Proof.
  intros Hb He. rewrite (handler_provider_failure _ _ _ _ _ _ Hb He).
  now repeat split.
Qed.


Lemma handler_calls_provider
  (event : HandlerEvent.t) (teamA teamB matchCategory : JSValue)
  (prompt : string) :
  prompt_built event teamA teamB matchCategory prompt ->
  exists rest,
    trace (handler event) = CallGenerateContent prompt :: rest.
Proof.
  intros Hb.
  rewrite (handler_post _ _ _ (proj1 Hb)), (try_block_sent _ _ _ _ _ Hb).
  unfold emit. rewrite try_catch_after. now eexists.
Qed.

(** X6. A POST without a body (the platform passes [null], which parses
    to [null]) fails at the destructuring of line 98: no outbound call
    is made and the answer is the classification of the engine's
    [TypeError]. *)
Theorem null_body_rejected (event : HandlerEvent.t) :
  HandlerEvent.httpMethod event = "POST" ->
  JSON_parse engine
    (match HandlerEvent.body event with Some s => s | None => "null" end)
  = Return JSNull ->
  outcome (handler event)
  = Return (answer_to (Error (TypeError_destructure engine)))
  /\ outbound (trace (handler event)) = [].
Proof.
  intros Hm Hj. rewrite (handler_post _ _ _ Hm). unfold try_block.
  rewrite Hj, bind_lift_Return. cbn [destructure].
  rewrite bind_lift_Throw, try_catch_caught. now split.
Qed.

(** X7. The request is not validated: when the body parses to a value
    other than [null] that has none of the three fields (an empty
    object, a number, a string, an array), the handler still calls the
    provider, with a prompt in which each field reads [undefined]. *)
Theorem missing_fields_sent_as_undefined
  (event : HandlerEvent.t) (parsed : JSValue) :
  HandlerEvent.httpMethod event = "POST" ->
  JSON_parse engine
    (match HandlerEvent.body event with Some s => s | None => "null" end)
  = Return parsed ->
  parsed <> JSNull ->
  parsed <> JSUndefined ->
  get parsed "teamA" = JSUndefined ->
  get parsed "teamB" = JSUndefined ->
  get parsed "matchCategory" = JSUndefined ->
  GoogleGenAI_new svc = Return tt ->
  exists rest,
    trace (handler event)
    = CallGenerateContent (prompt_text "undefined" "undefined" "undefined")
        :: rest.
Proof.
  intros Hm Hj Hnull Hundef Ha Hb Hc Hnew.
  apply (handler_calls_provider event JSUndefined JSUndefined JSUndefined).
  split; [exact Hm|]. split; [|now split].
  exists parsed. split; [exact Hj|].
  unfold destructure. rewrite Ha, Hb, Hc.
  destruct parsed; try reflexivity; congruence.
Qed.

(** X8. When the body parses to a value whose three fields are strings,
    the provider is called with the text of line 103 in which the
    category, the home team and the away team stand as they were
    sent. *)
Theorem string_fields_sent_in_prompt
  (event : HandlerEvent.t) (parsed : JSValue)
  (teamA teamB matchCategory : string) :
  HandlerEvent.httpMethod event = "POST" ->
  JSON_parse engine
    (match HandlerEvent.body event with Some s => s | None => "null" end)
  = Return parsed ->
  get parsed "teamA" = JSString teamA ->
  get parsed "teamB" = JSString teamB ->
  get parsed "matchCategory" = JSString matchCategory ->
  GoogleGenAI_new svc = Return tt ->
  exists rest,
    trace (handler event)
    = CallGenerateContent (prompt_text matchCategory teamA teamB) :: rest.
Proof.
  intros Hm Hj Ha Hb Hc Hnew.
  apply (handler_calls_provider event
           (JSString teamA) (JSString teamB) (JSString matchCategory)).
  split; [exact Hm|]. split; [|now split].
  exists parsed. split; [exact Hj|].
  unfold destructure. rewrite Ha, Hb, Hc.
  destruct parsed; try reflexivity; discriminate Ha.
Qed.



(** X12. When the construction of the provider's client throws (line
    101), no outbound call is made and the answer is the classification
    of that error. *)
Theorem client_failure_classified
  (event : HandlerEvent.t) (parsed : JSValue) (e : JsError) :
  HandlerEvent.httpMethod event = "POST" ->
  JSON_parse engine
    (match HandlerEvent.body event with Some s => s | None => "null" end)
  = Return parsed ->
  parsed <> JSNull ->
  parsed <> JSUndefined ->
  GoogleGenAI_new svc = Throw e ->
  outcome (handler event) = Return (answer_to e)
  /\ outbound (trace (handler event)) = [].
Proof.
  intros Hm Hj Hnull Hundef Hnew.
  rewrite (handler_post _ _ _ Hm). unfold try_block.
  rewrite Hj, bind_lift_Return.
  assert (Hd : destructure engine parsed
               = Return (get parsed "teamA", get parsed "teamB",
                         get parsed "matchCategory"))
    by (destruct parsed; try reflexivity; congruence).
  rewrite Hd, bind_lift_Return. cbv beta iota.
  rewrite Hnew, bind_lift_Throw, try_catch_caught. now split.
Qed.

End Further.

(** * The further properties on the sample world *)

Section FurtherExamples.

Import Sample.

Let home : JSValue := JSString "Arsenal".
Let away : JSValue := JSString "Chelsea".
Let category : JSValue := JSString "men".
Let row : JSValue := prediction_row home away category prediction.

(** Services whose provider rejects every call with [msg]. *)
Let rejecting (msg : string) : Services :=
  {| GoogleGenAI_new := Return tt;
     generateContent := fun _ => Throw (Error msg);
     insert := saving |}.

(** Services whose client cannot be built. *)
Let unconfigured : Services :=
  {| GoogleGenAI_new :=
       Throw (Error "API key must be set when using the Gemini API.");
     generateContent := fun _ => Return (answer (Some "STOP") None);
     insert := saving |}.

Lemma sample_built (svc : Services) :
  GoogleGenAI_new svc = Return tt ->
  prompt_built node svc match_request home away category prompt.
Proof.
  intros H. split; [reflexivity|]. split; [|now split].
  exists request. now split.
Qed.

Lemma success_iff_saved_witness :
  let response := answer (Some "STOP") (Some (stringify prediction)) in
  let svc := services response saving in
  let r := {| HandlerResponse.statusCode := 200;
              HandlerResponse.headers := json_headers;
              HandlerResponse.body := stringify (data (saving row)) |} in
  (HandlerResponse.statusCode r = 200%Z ->
   exists row,
     In (CallInsert row) (trace (handler node svc match_request))
     /\ error (insert svc row) = None
     /\ HandlerResponse.body r = JSON_stringify node (data (insert svc row)))
  /\ ((exists row,
         In (CallInsert row) (trace (handler node svc match_request))
         /\ error (insert svc row) = None) ->
      HandlerResponse.statusCode r = 200%Z).
Proof.
  intros response svc r.
  apply (success_iff_saved node svc match_request r). reflexivity.
Defined.

Lemma provider_failure_classified_witness :
  let e := Error "Network request failed" in
  let svc := rejecting "Network request failed" in
  outcome (handler node svc match_request)
  = Return (error_response node (fst (classify e)) (snd (classify e)))
  /\ outbound (trace (handler node svc match_request))
     = [CallGenerateContent prompt]
  /\ inserts (trace (handler node svc match_request)) = [].
Proof.
  intros e svc.
  apply (provider_failure_classified node svc match_request
           home away category prompt e).
  - now apply sample_built.
  - reflexivity.
Defined.


Lemma null_body_rejected_witness :
  let svc := services (answer (Some "STOP") None) saving in
  let event := {| HandlerEvent.httpMethod := "POST";
                  HandlerEvent.body := None |} in
  outcome (handler node svc event)
  = Return (error_response node
              (fst (classify (Error (TypeError_destructure node))))
              (snd (classify (Error (TypeError_destructure node)))))
  /\ outbound (trace (handler node svc event)) = [].
Proof.
  intros svc event. apply (null_body_rejected node svc event); reflexivity.
Defined.

Lemma missing_fields_sent_as_undefined_witness :
  let svc := services (answer (Some "STOP") None) saving in
  exists rest,
    trace (handler node svc (post (stringify prediction)))
    = CallGenerateContent (prompt_text "undefined" "undefined" "undefined")
        :: rest.
Proof.
  intros svc.
  apply (missing_fields_sent_as_undefined node svc
           (post (stringify prediction)) prediction);
    try reflexivity; discriminate.
Defined.

Lemma string_fields_sent_in_prompt_witness :
  let svc := services (answer (Some "STOP") None) saving in
  exists rest,
    trace (handler node svc match_request)
    = CallGenerateContent (prompt_text "men" "Arsenal" "Chelsea") :: rest.
Proof.
  intros svc.
  apply (string_fields_sent_in_prompt node svc match_request request);
    reflexivity.
Defined.



Lemma client_failure_classified_witness :
  let e := Error "API key must be set when using the Gemini API." in
  outcome (handler node unconfigured match_request)
  = Return (error_response node (fst (classify e)) (snd (classify e)))
  /\ outbound (trace (handler node unconfigured match_request)) = [].
Proof.
  intros e.
  apply (client_failure_classified node unconfigured match_request request e);
    try reflexivity; discriminate.
Defined.

End FurtherExamples.
